(** * sublime-rest-client: the request worker, the progress poller and the
      result renderer of [plugin.py]

    A shallow embedding of [plugin.py].  The worker thread
    ([HttpRequestThread.run]) is a small-step machine, one step per source
    statement, so that the poller running on the editor's UI thread can
    observe it between any two statements.  The UI side (the [set_timeout]
    queue, [poll], [on_success], [on_error] and the text command
    [UpdateRestResponsePanelCommand]) is a state transformer on the output
    panel.  A request cycle is the interleaving of the two, driven by an
    explicit schedule. *)

From Stdlib Require Import ZArith List String Ascii Bool Lia DecimalString.
Import ListNotations.

Open Scope string_scope.
Open Scope Z_scope.

(* ================================================================== *)
(** ** Python strings *)

(** The line feed, Python's ["\n"]. *)
Definition LF : string := String (ascii_of_nat 10) EmptyString.

(** The double quote character. *)
Definition DQUOTE : string := String (ascii_of_nat 34) EmptyString.

(** [sep.join(parts)] is [String.concat sep parts]. *)
Definition join (sep : string) (parts : list string) : string :=
  String.concat sep parts.

(** [s * n] for a natural [n]. *)
Fixpoint str_repeat (s : string) (n : nat) : string :=
  match n with
  | O => EmptyString
  | S k => s ++ str_repeat s k
  end.

(** [s * n] for a Python integer: a negative count gives the empty string. *)
Definition str_mul (s : string) (n : Z) : string := str_repeat s (Z.to_nat n).

(** [len(s)]. *)
Definition len (s : string) : Z := Z.of_nat (String.length s).

(** [f"{n}"] for an integer [n]: its decimal numeral. *)
Definition str_of_int (n : Z) : string := NilZero.string_of_int (Z.to_int n).

(** The first [n] characters of [s], and [s] without them. *)
Fixpoint str_take (n : nat) (s : string) : string :=
  match n, s with
  | S k, String c r => String c (str_take k r)
  | _, _ => EmptyString
  end.

Fixpoint str_drop (n : nat) (s : string) : string :=
  match n, s with
  | S k, String _ r => str_drop k r
  | _, _ => s
  end.

(** [x or d] for an [Optional[int]] [x]: [None] and [0] are falsy. *)
Definition py_or (x : option Z) (d : Z) : Z :=
  match x with
  | Some v => if v =? 0 then d else v
  | None => d
  end.

(* ================================================================== *)
(** ** Constants of [plugin.py] *)

Definition THROBBER_WIDTH : Z := 6.
Definition THROBBER_REFRESH_RATE : Z := 100.
Definition PANEL_NAME : string := "REST Client Response".

(* ================================================================== *)
(** ** The request and response values of [rest_client] *)

(** Modelled from the spec: the package [rest_client] is not part of the
    sources at hand.  Of a [Request] the plugin reads [method] and [url]. *)
Record Request : Type := {
  method : string;
  url : string
}.

(** Modelled from the spec: [rest_client.Response], a numeric status code, an
    ordered mapping of headers (the list is what [headers.items()] yields, in
    insertion order) and the body as text. *)
Record Response : Type := {
  status : Z;
  headers : list (string * string);
  data : string
}.

(** How a call of the transport adapter [client.request] resolves: it returns
    a response or raises.  [E] is the type of the raised values: instances of
    Python's class [Exception], which is what the handler of the worker names
    and the declared type of its [error] attribute.  (The exceptions that end
    the interpreter, [KeyboardInterrupt], [SystemExit] and [GeneratorExit],
    derive from [BaseException] only; they are not errors of a transport call
    and are outside this type.) *)
Inductive AdapterResult (E : Type) : Type :=
| Returns (r : Response)
| Raises (e : E).

Arguments Returns {E} r.
Arguments Raises {E} e.

(** How a call of [parser.parse], of the same package, resolves: it returns
    the request read from the text of a view or raises. *)
Inductive ParseResult (E : Type) : Type :=
| Parsed (request : Request)
| ParseFails (e : E).

Arguments Parsed {E} request.
Arguments ParseFails {E} e.

(** What an accessor gives: the value, or the [RestException] it raises with
    its message. *)
Inductive Access (A : Type) : Type :=
| Value (v : A)
| RestException (message : string).

Arguments Value {A} v.
Arguments RestException {A} message.

(* ================================================================== *)
(** ** The editor's text view, as far as the plugin drives it *)

Module sublime.

(** [sublime.Region(a, b)]. *)
Record Region : Type := { a : Z; b : Z }.

Definition begin_ (r : Region) : Z := Z.min (a r) (b r).
Definition end_ (r : Region) : Z := Z.max (a r) (b r).

(** A call of the view's API that changes the view. *)
Inductive Call : Type :=
| SetScratch (flag : bool)
| AssignSyntax (syntax : string)
| Replace (r : Region) (text : string)
| SelClear.

(** The view: its text, the scratch flag, the assigned syntax, the selection
    and the calls received so far, oldest first. *)
Record View : Type := {
  text : string;
  scratch : bool;
  syntax : option string;
  sel : list Region;
  calls : list Call
}.

Definition size (v : View) : Z := len (text v).

Definition set_scratch (v : View) (flag : bool) : View :=
  {| text := text v; scratch := flag; syntax := syntax v; sel := sel v;
     calls := calls v ++ [SetScratch flag] |}.

Definition assign_syntax (v : View) (s : string) : View :=
  {| text := text v; scratch := scratch v; syntax := Some s; sel := sel v;
     calls := calls v ++ [AssignSyntax s] |}.

(** [view.replace(edit, region, s)]: the characters of the region give way
    to [s]; a bound outside the buffer is clamped to it. *)
Definition replace (v : View) (r : Region) (s : string) : View :=
  {| text := str_take (Z.to_nat (begin_ r)) (text v) ++ s
             ++ str_drop (Z.to_nat (end_ r)) (text v);
     scratch := scratch v; syntax := syntax v; sel := sel v;
     calls := calls v ++ [Replace r s] |}.

(** [view.sel().clear()]. *)
Definition sel_clear (v : View) : View :=
  {| text := text v; scratch := scratch v; syntax := syntax v; sel := [];
     calls := calls v ++ [SelClear] |}.

End sublime.

(** [UpdateRestResponsePanelCommand.run], lines 139-146 (the [print] to the
    console is left out). *)
Definition update_rest_response_panel
    (view : sublime.View) (text : string)
    (region_start region_end : option Z) : sublime.View :=
  let view := sublime.set_scratch view true in
  let view := sublime.assign_syntax view "scope:source.http-response" in
  let region :=
    sublime.Build_Region (py_or region_start 0)
                         (py_or region_end (sublime.size view)) in
  let view := sublime.replace view region text in
  sublime.sel_clear view.

(* ================================================================== *)
(** ** The throbber *)

(** The text of [update_throbber], line 84. *)
Definition throbber (position : Z) : string :=
  str_mul " " position ++ "=" ++ str_mul " " (THROBBER_WIDTH - 1 - position).

(** Lines 104-108 of [poll]: the position and step of the next tick. *)
Definition advance (position step : Z) : Z * Z :=
  let position := position + step in
  let step :=
    if position =? 0 then 1
    else if position =? THROBBER_WIDTH - 1 then -1
    else step in
  (position, step).

(** The state of the poller after [n] ticks on which the thread was alive,
    from [poll(0, 1)]. *)
Fixpoint poller (n : nat) : Z * Z :=
  match n with
  | O => (0, 1)
  | S k => advance (fst (poller k)) (snd (poller k))
  end.

(** The first frame written by [send_request], lines 74-77. *)
Definition waiting_frame (request : Request) : string :=
  join (LF ++ LF)
    [ method request ++ " " ++ url request;
      "Waiting for response [" ++ str_mul " " THROBBER_WIDTH ++ "]" ].

(** Lines 80-81. *)
Definition throbber_end (request : Request) : Z :=
  len (waiting_frame request) - 1.

Definition throbber_start (request : Request) : Z :=
  throbber_end request - THROBBER_WIDTH.

(** [update_throbber], lines 83-88. *)
Definition update_throbber
    (request : Request) (view : sublime.View) (position : Z) : sublime.View :=
  update_rest_response_panel view (throbber position)
    (Some (throbber_start request)) (Some (throbber_end request)).

(* ================================================================== *)
(** ** [http.HTTPStatus] and sample collaborators *)

(** The members of [http.HTTPStatus] in CPython 3.8, the interpreter of the
    editor's plugin host ([plugin.py] imports [typing.Literal], new in 3.8):
    [HTTPStatus(code).phrase], or [None] where [HTTPStatus(code)] raises
    [ValueError].  The statements below hold for any such table; this one
    instantiates them. *)
Definition HTTPStatus_py38 (code : Z) : option string :=
  match code with
  | 100 => Some "Continue"
  | 101 => Some "Switching Protocols"
  | 102 => Some "Processing"
  | 200 => Some "OK"
  | 201 => Some "Created"
  | 202 => Some "Accepted"
  | 203 => Some "Non-Authoritative Information"
  | 204 => Some "No Content"
  | 205 => Some "Reset Content"
  | 206 => Some "Partial Content"
  | 207 => Some "Multi-Status"
  | 208 => Some "Already Reported"
  | 226 => Some "IM Used"
  | 300 => Some "Multiple Choices"
  | 301 => Some "Moved Permanently"
  | 302 => Some "Found"
  | 303 => Some "See Other"
  | 304 => Some "Not Modified"
  | 305 => Some "Use Proxy"
  | 307 => Some "Temporary Redirect"
  | 308 => Some "Permanent Redirect"
  | 400 => Some "Bad Request"
  | 401 => Some "Unauthorized"
  | 402 => Some "Payment Required"
  | 403 => Some "Forbidden"
  | 404 => Some "Not Found"
  | 405 => Some "Method Not Allowed"
  | 406 => Some "Not Acceptable"
  | 407 => Some "Proxy Authentication Required"
  | 408 => Some "Request Timeout"
  | 409 => Some "Conflict"
  | 410 => Some "Gone"
  | 411 => Some "Length Required"
  | 412 => Some "Precondition Failed"
  | 413 => Some "Request Entity Too Large"
  | 414 => Some "Request-URI Too Long"
  | 415 => Some "Unsupported Media Type"
  | 416 => Some "Requested Range Not Satisfiable"
  | 417 => Some "Expectation Failed"
  | 421 => Some "Misdirected Request"
  | 422 => Some "Unprocessable Entity"
  | 423 => Some "Locked"
  | 424 => Some "Failed Dependency"
  | 426 => Some "Upgrade Required"
  | 428 => Some "Precondition Required"
  | 429 => Some "Too Many Requests"
  | 431 => Some "Request Header Fields Too Large"
  | 451 => Some "Unavailable For Legal Reasons"
  | 500 => Some "Internal Server Error"
  | 501 => Some "Not Implemented"
  | 502 => Some "Bad Gateway"
  | 503 => Some "Service Unavailable"
  | 504 => Some "Gateway Timeout"
  | 505 => Some "HTTP Version Not Supported"
  | 506 => Some "Variant Also Negotiates"
  | 507 => Some "Insufficient Storage"
  | 508 => Some "Loop Detected"
  | 510 => Some "Not Extended"
  | 511 => Some "Network Authentication Required"
  | _ => None
  end.

(** A sample exception value: its class and its message. *)
Record SampleError : Type := {
  exc_class : string;
  exc_message : string
}.

(** [repr] of a sample exception, as [repr(ConnectionRefusedError("x"))]. *)
Definition sample_repr (e : SampleError) : string :=
  exc_class e ++ "('" ++ exc_message e ++ "')".

(** The text [traceback.format_exc()] gives in the handler of the worker for
    a sample exception raised inside [client.request]. *)
Definition sample_format_exc (e : SampleError) : string :=
  "Traceback (most recent call last):" ++ LF
  ++ "  File " ++ DQUOTE ++ "plugin.py" ++ DQUOTE ++ ", line 39, in run" ++ LF
  ++ "    self.response = client.request(self.request)" ++ LF
  ++ exc_class e ++ ": " ++ exc_message e ++ LF.

Definition get_request : Request :=
  {| method := "GET"; url := "https://example.test/get" |}.

Definition localhost_request : Request :=
  {| method := "GET"; url := "http://localhost:9999" |}.

Definition ok_response : Response :=
  {| status := 200; headers := [("Date", "X")];
     data := "{" ++ DQUOTE ++ "ok" ++ DQUOTE ++ ":true}" |}.

Definition odd_response : Response :=
  {| status := 599; headers := [("Date", "X")]; data := "late" |}.

Definition connection_refused : SampleError :=
  {| exc_class := "ConnectionRefusedError";
     exc_message := "[Errno 111] Connection refused" |}.

(** A fresh output panel, as [create_output_panel] gives it. *)
Definition empty_panel : sublime.View :=
  {| sublime.text := EmptyString; sublime.scratch := false;
     sublime.syntax := None; sublime.sel := []; sublime.calls := [] |}.

(** Sample adapters: one that answers 200, one that answers the non-standard
    599, one whose connection is refused. *)
Definition adapter_ok (_ : Request) : AdapterResult SampleError :=
  Returns ok_response.

Definition adapter_odd (_ : Request) : AdapterResult SampleError :=
  Returns odd_response.

Definition adapter_refused (_ : Request) : AdapterResult SampleError :=
  Raises connection_refused.

(** An adapter that answers 200 unless the request goes to the local port
    nobody listens on. *)
Definition adapter_by_url (req : Request) : AdapterResult SampleError :=
  if String.eqb (url req) (url localhost_request)
  then Raises connection_refused
  else Returns ok_response.

(** A view that holds a text. *)
Definition sample_view (text : string) : sublime.View :=
  {| sublime.text := text; sublime.scratch := false;
     sublime.syntax := None; sublime.sel := []; sublime.calls := [] |}.

(** A sample parser: the text of the view is the URL of a GET request, and
    the parser raises on a view without text. *)
Definition sample_parse (view : sublime.View) : ParseResult SampleError :=
  match sublime.text view with
  | EmptyString =>
      ParseFails {| exc_class := "Exception"; exc_message := "no request" |}
  | target => Parsed {| method := "GET"; url := target |}
  end.

(* ================================================================== *)
(** ** The worker, the poller and the renderer *)

Section Plugin.

(** Instances of Python's [Exception]. *)
Variable PyException : Type.

(** [rest_client.client.request], the transport adapter: how its call for a
    request resolves. *)
Variable client_request : Request -> AdapterResult PyException.

(** [HTTPStatus(code).phrase]; [None] where [HTTPStatus(code)] raises
    [ValueError]. *)
Variable HTTPStatus : Z -> option string.

(** [repr(exception)]. *)
Variable repr : PyException -> string.

(** [traceback.format_exc()] in the handler that caught the exception. *)
Variable format_exc : PyException -> string.

(** *** [HttpRequestThread] *)

(** The statement of [run] the thread executes next, by source line.
    [L39_blocked] is the thread inside [client.request]; [L42] holds the
    exception that [except Exception as exc] bound. *)
Inductive Line : Type :=
| Unstarted
| L37
| L39
| L39_blocked
| L40
| L42 (exc : PyException)
| L43
| L45
| L46
| Returned.

(** What the adapter saw, with the clock at that moment. *)
Inductive Event : Type :=
| Invoked (request : Request) (at_time : Z)
| Resolved (result : AdapterResult PyException) (at_time : Z).

(** The thread object: the attributes of lines 31-34, those [run] adds
    (absent until assigned), the line it is at, and the log of its calls of
    the adapter, oldest first. *)
Record HttpRequestThread : Type := {
  request : Request;
  success : option bool;
  response : option Response;
  error : option (PyException * string);
  _start : option Z;
  _end : option Z;
  elapsed : option Z;
  line : Line;
  adapter_log : list Event
}.

(** [HttpRequestThread(request)], lines 29-34. *)
Definition HttpRequestThread_init (req : Request) : HttpRequestThread :=
  {| request := req; success := None; response := None; error := None;
     _start := None; _end := None; elapsed := None;
     line := Unstarted; adapter_log := [] |}.

(** Assignments to the attributes of the thread, the move to a line, and an
    entry added to the log. *)
Definition set_success (b : bool) (t : HttpRequestThread) : HttpRequestThread :=
  {| request := request t; success := Some b; response := response t;
     error := error t; _start := _start t; _end := _end t;
     elapsed := elapsed t; line := line t; adapter_log := adapter_log t |}.

Definition set_response
    (r : Response) (t : HttpRequestThread) : HttpRequestThread :=
  {| request := request t; success := success t; response := Some r;
     error := error t; _start := _start t; _end := _end t;
     elapsed := elapsed t; line := line t; adapter_log := adapter_log t |}.

Definition set_error
    (e : PyException * string) (t : HttpRequestThread) : HttpRequestThread :=
  {| request := request t; success := success t; response := response t;
     error := Some e; _start := _start t; _end := _end t;
     elapsed := elapsed t; line := line t; adapter_log := adapter_log t |}.

Definition set_start (now : Z) (t : HttpRequestThread) : HttpRequestThread :=
  {| request := request t; success := success t; response := response t;
     error := error t; _start := Some now; _end := _end t;
     elapsed := elapsed t; line := line t; adapter_log := adapter_log t |}.

Definition set_end (now : Z) (t : HttpRequestThread) : HttpRequestThread :=
  {| request := request t; success := success t; response := response t;
     error := error t; _start := _start t; _end := Some now;
     elapsed := elapsed t; line := line t; adapter_log := adapter_log t |}.

Definition set_elapsed
    (d : option Z) (t : HttpRequestThread) : HttpRequestThread :=
  {| request := request t; success := success t; response := response t;
     error := error t; _start := _start t; _end := _end t;
     elapsed := d; line := line t; adapter_log := adapter_log t |}.

Definition goto (l : Line) (t : HttpRequestThread) : HttpRequestThread :=
  {| request := request t; success := success t; response := response t;
     error := error t; _start := _start t; _end := _end t;
     elapsed := elapsed t; line := l; adapter_log := adapter_log t |}.

Definition logged (ev : Event) (t : HttpRequestThread) : HttpRequestThread :=
  {| request := request t; success := success t; response := response t;
     error := error t; _start := _start t; _end := _end t;
     elapsed := elapsed t; line := line t;
     adapter_log := adapter_log t ++ [ev] |}.

(** [thread.start()]: [run] is about to execute its first statement. *)
Definition start (t : HttpRequestThread) : HttpRequestThread := goto L37 t.

(** [thread.is_alive()]. *)
Definition is_alive (t : HttpRequestThread) : bool :=
  match line t with
  | Unstarted | Returned => false
  | _ => true
  end.

(** One statement of [run], lines 37-46, with [perf_counter()] reading
    [now]; readings of the clock are integers, its ticks.  The call of line
    39 takes two steps, into the adapter and out of it, so that time passes
    while the thread is inside.  An exception the adapter raises is an
    [Exception]: the handler of line 41 takes it and binds it to [exc].
    After either branch the [finally] block runs, and [run] returns. *)
Definition run_step (now : Z) (t : HttpRequestThread) : HttpRequestThread :=
  match line t with
  | Unstarted => t
  | L37 => goto L39 (set_start now t)
  | L39 => goto L39_blocked (logged (Invoked (request t) now) t)
  | L39_blocked =>
      match client_request (request t) with
      | Returns r =>
          goto L40 (set_response r (logged (Resolved (Returns r) now) t))
      | Raises exc =>
          goto (L42 exc) (logged (Resolved (Raises exc) now) t)
      end
  | L40 => goto L45 (set_success true t)
  | L42 exc => goto L43 (set_error (exc, format_exc exc) t)
  | L43 => goto L45 (set_success false t)
  | L45 => goto L46 (set_end now t)
  | L46 =>
      goto Returned
        (set_elapsed
           match _end t, _start t with
           | Some e, Some s => Some (e - s)
           | _, _ => None
           end
           t)
  | Returned => t
  end.

(** [get_response], lines 48-51. *)
Definition get_response (t : HttpRequestThread) : Access Response :=
  match success t, response t with
  | Some _, Some r => Value r
  | _, _ => RestException "Attempted to retrieve response before completion"
  end.

(** [get_error], lines 53-56. *)
Definition get_error (t : HttpRequestThread) : Access (PyException * string) :=
  match success t, error t with
  | Some _, Some e => Value e
  | _, _ => RestException "Attempted to retrieve error before completion"
  end.

(** *** [RestRequestCommand] *)

(** The closures handed to [sublime.set_timeout]. *)
Inductive Callback : Type :=
| Poll (position step : Z)
| OnSuccess (response : Response)
| OnError (exception : PyException) (trace : string).

(** An exception raised inside a callback of the UI thread: the editor
    reports it on its console and the callback ends there. *)
Inductive Fault : Type :=
| ValueError (code : Z)
| AssertionError.

(** One request cycle: the worker thread, the output panel
    ([self.panel_view]), the callbacks queued with [set_timeout] together
    with their delays (oldest first), the console, and the monotonic clock.
    [self.request] is the request the thread was built with. *)
Record Cycle : Type := {
  thread : HttpRequestThread;
  panel_view : sublime.View;
  timeouts : list (Callback * Z);
  console : list Fault;
  clock : Z
}.

(** [sublime.set_timeout(callback, delay)]. *)
Definition set_timeout (c : Cycle) (callback : Callback) (delay : Z) : Cycle :=
  {| thread := thread c; panel_view := panel_view c;
     timeouts := timeouts c ++ [(callback, delay)];
     console := console c; clock := clock c |}.

(** The callback raises. *)
Definition raise (c : Cycle) (f : Fault) : Cycle :=
  {| thread := thread c; panel_view := panel_view c; timeouts := timeouts c;
     console := console c ++ [f]; clock := clock c |}.

(** [self.panel_view.run_command("update_rest_response_panel", args)]. *)
Definition run_command
    (c : Cycle) (text : string) (region_start region_end : option Z) : Cycle :=
  {| thread := thread c;
     panel_view :=
       update_rest_response_panel (panel_view c) text region_start region_end;
     timeouts := timeouts c; console := console c; clock := clock c |}.

(** [headers_text] of [on_success], lines 115-117. *)
Definition headers_text (response : Response) : string :=
  join LF (map (fun item => fst item ++ ": " ++ snd item) (headers response)).

(** [output] of [on_success], lines 119-123, given the phrase of the status. *)
Definition success_output
    (req : Request) (response : Response) (phrase : string) : string :=
  join (LF ++ LF)
    [ method req ++ " " ++ url req ++ " " ++ str_of_int (status response)
        ++ " " ++ phrase;
      headers_text response;
      data response ].

(** [on_success], lines 114-124. *)
Definition on_success (c : Cycle) (response : Response) : Cycle :=
  match HTTPStatus (status response) with
  | None => raise c (ValueError (status response))
  | Some phrase =>
      run_command c (success_output (request (thread c)) response phrase)
        None None
  end.

(** [output] of [on_error], lines 127-131. *)
Definition error_output
    (req : Request) (exception : PyException) (trace : string) : string :=
  join (LF ++ LF)
    [ "REST Client: Error on request to " ++ method req ++ " " ++ url req;
      repr exception;
      trace ].

(** [on_error], lines 126-132. *)
Definition on_error
    (c : Cycle) (exception : PyException) (trace : string) : Cycle :=
  run_command c (error_output (request (thread c)) exception trace) None None.

(** [poll], lines 90-110, reading the thread as it is at this moment. *)
Definition poll (c : Cycle) (position step : Z) : Cycle :=
  if negb (is_alive (thread c)) then
    match success (thread c) with
    | Some true =>
        match response (thread c) with
        | Some r => set_timeout c (OnSuccess r) 0
        | None => raise c AssertionError
        end
    | _ =>
        match error (thread c) with
        | Some (exception, trace) => set_timeout c (OnError exception trace) 0
        | None => raise c AssertionError
        end
    end
  else
    let c :=
      {| thread := thread c;
         panel_view :=
           update_throbber (request (thread c)) (panel_view c) position;
         timeouts := timeouts c; console := console c; clock := clock c |} in
    let next := advance position step in
    set_timeout c (Poll (fst next) (snd next)) THROBBER_REFRESH_RATE.

(** [send_request], lines 70-112: the thread is started, the first frame is
    written, and [poll(0, 1)] is queued. *)
Definition send_request
    (req : Request) (panel : sublime.View) (now : Z) : Cycle :=
  let c :=
    {| thread := start (HttpRequestThread_init req); panel_view := panel;
       timeouts := []; console := []; clock := now |} in
  let c := run_command c (waiting_frame req) None None in
  set_timeout c (Poll 0 1) 0.

(** *** Scheduling *)

(** Who moves next: the worker thread executes one statement, the UI thread
    runs the oldest queued callback to its end, or time passes.  When a
    queued callback runs is up to the schedule: its delay is a lower bound
    the editor keeps, and every order of turns the editor can produce is a
    schedule. *)
Inductive Turn : Type :=
| WorkerTurn
| UiTurn
| TimePasses (ticks : nat).

Definition run_callback (c : Cycle) (callback : Callback) : Cycle :=
  match callback with
  | Poll position step => poll c position step
  | OnSuccess r => on_success c r
  | OnError exception trace => on_error c exception trace
  end.

Definition turn (t : Turn) (c : Cycle) : Cycle :=
  match t with
  | WorkerTurn =>
      {| thread := run_step (clock c) (thread c); panel_view := panel_view c;
         timeouts := timeouts c; console := console c; clock := clock c |}
  | UiTurn =>
      match timeouts c with
      | [] => c
      | (callback, _) :: rest =>
          run_callback
            {| thread := thread c; panel_view := panel_view c;
               timeouts := rest; console := console c; clock := clock c |}
            callback
      end
  | TimePasses ticks =>
      {| thread := thread c; panel_view := panel_view c;
         timeouts := timeouts c; console := console c;
         clock := clock c + Z.of_nat ticks |}
  end.

(** The cycle after a schedule. *)
Definition exec (schedule : list Turn) (c : Cycle) : Cycle :=
  fold_left (fun c t => turn t c) schedule c.

(** *** The command object, from one invocation to the next

    The editor keeps one [RestRequestCommand] per window and calls [run] on
    it at every invocation.  The attributes [self.request] and
    [self.panel_view] are those of the latest invocation, while each
    invocation of [send_request] has a thread, bounds of the indicator and
    closures of its own.  The closures read the attributes when they run. *)

(** [parser.parse], of the package [rest_client]: how it resolves for the
    text of a view. *)
Variable parse : sublime.View -> ParseResult PyException.

(** The calls [run] makes on its window: [create_output_panel(name)] and
    [run_command("show_panel", {"panel": panel})]. *)
Inductive WindowCall : Type :=
| CreateOutputPanel (name : string)
| ShowPanel (panel : string).

(** The closures handed to [sublime.set_timeout]: [poll] holds the thread of
    its invocation, here its index among the threads started, and, through
    [update_throbber], the bounds computed at lines 80-81. *)
Inductive Job : Type :=
| PollJob (worker : nat) (throbber_start throbber_end : Z) (position step : Z)
| SuccessJob (response : Response)
| ErrorJob (exception : PyException) (trace : string).

(** What the editor reports on its console: an exception raised by a
    callback, one raised by [run], or an attribute read before [run] has
    assigned it. *)
Inductive Report : Type :=
| CallbackRaised (f : Fault)
| RunRaised (e : PyException)
| AttributeError (name : string).

(** The command object and what hangs on it: the two attributes (absent
    until a [run] assigns them), the threads started so far, the queue of
    callbacks with their delays, the console, the calls made on the window
    and the clock. *)
Record RestRequestCommand : Type := {
  self_request : option Request;
  self_panel_view : option sublime.View;
  threads : list HttpRequestThread;
  callbacks : list (Job * Z);
  reports : list Report;
  window_calls : list WindowCall;
  wall_clock : Z
}.

(** The command as the editor builds it. *)
Definition RestRequestCommand_init (now : Z) : RestRequestCommand :=
  {| self_request := None; self_panel_view := None; threads := [];
     callbacks := []; reports := []; window_calls := [];
     wall_clock := now |}.

Definition report (cmd : RestRequestCommand) (r : Report)
  : RestRequestCommand :=
  {| self_request := self_request cmd;
     self_panel_view := self_panel_view cmd; threads := threads cmd;
     callbacks := callbacks cmd; reports := reports cmd ++ [r];
     window_calls := window_calls cmd; wall_clock := wall_clock cmd |}.

Definition enqueue (cmd : RestRequestCommand) (job : Job) (delay : Z)
  : RestRequestCommand :=
  {| self_request := self_request cmd;
     self_panel_view := self_panel_view cmd; threads := threads cmd;
     callbacks := callbacks cmd ++ [(job, delay)]; reports := reports cmd;
     window_calls := window_calls cmd; wall_clock := wall_clock cmd |}.

Definition with_callbacks
    (cmd : RestRequestCommand) (q : list (Job * Z)) : RestRequestCommand :=
  {| self_request := self_request cmd;
     self_panel_view := self_panel_view cmd; threads := threads cmd;
     callbacks := q; reports := reports cmd;
     window_calls := window_calls cmd; wall_clock := wall_clock cmd |}.

Definition with_threads
    (cmd : RestRequestCommand) (ts : list HttpRequestThread)
  : RestRequestCommand :=
  {| self_request := self_request cmd;
     self_panel_view := self_panel_view cmd; threads := ts;
     callbacks := callbacks cmd; reports := reports cmd;
     window_calls := window_calls cmd; wall_clock := wall_clock cmd |}.

Definition with_panel_view
    (cmd : RestRequestCommand) (v : sublime.View) : RestRequestCommand :=
  {| self_request := self_request cmd; self_panel_view := Some v;
     threads := threads cmd; callbacks := callbacks cmd;
     reports := reports cmd; window_calls := window_calls cmd;
     wall_clock := wall_clock cmd |}.

Definition with_request
    (cmd : RestRequestCommand) (req : Request) : RestRequestCommand :=
  {| self_request := Some req; self_panel_view := self_panel_view cmd;
     threads := threads cmd; callbacks := callbacks cmd;
     reports := reports cmd; window_calls := window_calls cmd;
     wall_clock := wall_clock cmd |}.

Definition window_call (cmd : RestRequestCommand) (call : WindowCall)
  : RestRequestCommand :=
  {| self_request := self_request cmd;
     self_panel_view := self_panel_view cmd; threads := threads cmd;
     callbacks := callbacks cmd; reports := reports cmd;
     window_calls := window_calls cmd ++ [call];
     wall_clock := wall_clock cmd |}.

(** [self.panel_view.run_command("update_rest_response_panel", args)]. *)
Definition RestRequestCommand_write
    (cmd : RestRequestCommand) (text : string)
    (region_start region_end : option Z) : RestRequestCommand :=
  match self_panel_view cmd with
  | Some v =>
      with_panel_view cmd
        (update_rest_response_panel v text region_start region_end)
  | None => report cmd (AttributeError "panel_view")
  end.

(** [on_success], lines 114-124, on the object. *)
Definition RestRequestCommand_on_success
    (cmd : RestRequestCommand) (response : Response) : RestRequestCommand :=
  match HTTPStatus (status response) with
  | None => report cmd (CallbackRaised (ValueError (status response)))
  | Some phrase =>
      match self_request cmd with
      | Some req =>
          RestRequestCommand_write cmd (success_output req response phrase)
            None None
      | None => report cmd (AttributeError "request")
      end
  end.

(** [on_error], lines 126-132, on the object. *)
Definition RestRequestCommand_on_error
    (cmd : RestRequestCommand) (exception : PyException) (trace : string)
  : RestRequestCommand :=
  match self_request cmd with
  | Some req =>
      RestRequestCommand_write cmd (error_output req exception trace)
        None None
  | None => report cmd (AttributeError "request")
  end.

(** [poll], lines 90-110, of the invocation that started the thread
    [worker] and computed the bounds.  (A closure holds its thread; an index
    that names no thread does not occur, and leaves the command as it
    is.) *)
Definition RestRequestCommand_poll
    (cmd : RestRequestCommand) (worker : nat) (lo hi : Z)
    (position step : Z) : RestRequestCommand :=
  match nth_error (threads cmd) worker with
  | None => cmd
  | Some thread =>
      if negb (is_alive thread) then
        match success thread with
        | Some true =>
            match response thread with
            | Some r => enqueue cmd (SuccessJob r) 0
            | None => report cmd (CallbackRaised AssertionError)
            end
        | _ =>
            match error thread with
            | Some (exception, trace) =>
                enqueue cmd (ErrorJob exception trace) 0
            | None => report cmd (CallbackRaised AssertionError)
            end
        end
      else
        let cmd :=
          RestRequestCommand_write cmd (throbber position)
            (Some lo) (Some hi) in
        let next := advance position step in
        enqueue cmd (PollJob worker lo hi (fst next) (snd next))
          THROBBER_REFRESH_RATE
  end.

(** [send_request], lines 70-112, on the object. *)
Definition RestRequestCommand_send_request
    (cmd : RestRequestCommand) : RestRequestCommand :=
  match self_request cmd with
  | None => report cmd (AttributeError "request")
  | Some req =>
      let worker := List.length (threads cmd) in
      let cmd :=
        with_threads cmd (threads cmd ++ [start (HttpRequestThread_init req)])
      in
      let cmd := RestRequestCommand_write cmd (waiting_frame req) None None in
      enqueue cmd
        (PollJob worker (throbber_start req) (throbber_end req) 0 1) 0
  end.

(** [run], lines 60-68: [active] is what [self.window.active_view()] gives
    and [panel] the view [create_output_panel] returns.  An exception of the
    parser leaves [run] at line 65. *)
Definition RestRequestCommand_run
    (active : option sublime.View) (panel : sublime.View)
    (cmd : RestRequestCommand) : RestRequestCommand :=
  match active with
  | None => cmd
  | Some view =>
      match parse view with
      | ParseFails e => report cmd (RunRaised e)
      | Parsed req =>
          let cmd := with_request cmd req in
          let cmd :=
            with_panel_view (window_call cmd (CreateOutputPanel PANEL_NAME))
              panel in
          let cmd := window_call cmd (ShowPanel ("output." ++ PANEL_NAME)) in
          RestRequestCommand_send_request cmd
      end
  end.

(** The [i]-th element of a list replaced. *)
Fixpoint list_update {A : Type} (i : nat) (f : A -> A) (l : list A) : list A :=
  match l, i with
  | [], _ => []
  | x :: rest, O => f x :: rest
  | x :: rest, S k => x :: list_update k f rest
  end.

(** A list without its [i]-th element. *)
Definition list_remove {A : Type} (i : nat) (l : list A) : list A :=
  (firstn i l ++ skipn (S i) l)%list.

(** What happens next to the command: the editor invokes it, one of its
    threads executes a statement, the UI thread runs one of the queued
    callbacks (with several invocations in flight the timers decide which is
    due first, so the step names it by its place in the queue), or time
    passes. *)
Inductive Step : Type :=
| Invoke (active : option sublime.View) (panel : sublime.View)
| WorkerStep (worker : nat)
| UiStep (which : nat)
| Elapse (ticks : nat).

Definition run_job (cmd : RestRequestCommand) (job : Job)
  : RestRequestCommand :=
  match job with
  | PollJob worker lo hi position step =>
      RestRequestCommand_poll cmd worker lo hi position step
  | SuccessJob r => RestRequestCommand_on_success cmd r
  | ErrorJob exception trace => RestRequestCommand_on_error cmd exception trace
  end.

Definition command_step (s : Step) (cmd : RestRequestCommand)
  : RestRequestCommand :=
  match s with
  | Invoke active panel => RestRequestCommand_run active panel cmd
  | WorkerStep worker =>
      with_threads cmd
        (list_update worker (run_step (wall_clock cmd)) (threads cmd))
  | UiStep which =>
      match nth_error (callbacks cmd) which with
      | None => cmd
      | Some (job, _) =>
          run_job (with_callbacks cmd (list_remove which (callbacks cmd))) job
      end
  | Elapse ticks =>
      {| self_request := self_request cmd;
         self_panel_view := self_panel_view cmd; threads := threads cmd;
         callbacks := callbacks cmd; reports := reports cmd;
         window_calls := window_calls cmd;
         wall_clock := wall_clock cmd + Z.of_nat ticks |}
  end.

(** The command after a sequence of steps. *)
Definition command_steps (l : list Step) (cmd : RestRequestCommand)
  : RestRequestCommand :=
  fold_left (fun cmd s => command_step s cmd) l cmd.

(** A turn of a cycle as a step of the command whose only thread is that
    of the cycle, and likewise a callback with its bounds. *)
Definition step_of_turn (t : Turn) : Step :=
  match t with
  | WorkerTurn => WorkerStep 0
  | UiTurn => UiStep 0
  | TimePasses ticks => Elapse ticks
  end.

Definition job_of_callback (req : Request) (queued : Callback * Z) : Job * Z :=
  match fst queued with
  | Poll position step =>
      (PollJob 0 (throbber_start req) (throbber_end req) position step,
       snd queued)
  | OnSuccess r => (SuccessJob r, snd queued)
  | OnError exception trace => (ErrorJob exception trace, snd queued)
  end.

(* ================================================================== *)
(** ** Notions used by the statements *)

(** Three blocks joined by a blank line. *)
Definition three_blocks (b1 b2 b3 : string) : string :=
  b1 ++ LF ++ LF ++ b2 ++ LF ++ LF ++ b3.


(** The text before the indicator in a frame. *)
Definition frame_prefix (req : Request) : string :=
  (method req ++ " " ++ url req) ++ (LF ++ LF) ++ "Waiting for response [".

(** The text of the panel while the request is in flight: the request line,
    a blank line, and the label with the indicator [span] in brackets. *)
Definition frame (req : Request) (span : string) : string :=
  frame_prefix req ++ span ++ "]".

(** The characters of a text that lie in the indicator's span, from
    [throbber_start] up to [throbber_end]. *)
Definition indicator (req : Request) (text : string) : string :=
  str_take (Z.to_nat (throbber_end req - throbber_start req))
           (str_drop (Z.to_nat (throbber_start req)) text).

(** The text before the span, and the text from its end on. *)
Definition before_indicator (req : Request) (text : string) : string :=
  str_take (Z.to_nat (throbber_start req)) text.

Definition after_indicator (req : Request) (text : string) : string :=
  str_drop (Z.to_nat (throbber_end req)) text.

(** The four calls of the view's API a write makes, in order. *)
Definition write_calls (region : sublime.Region) (s : string)
  : list sublime.Call :=
  [ sublime.SetScratch true;
    sublime.AssignSyntax "scope:source.http-response";
    sublime.Replace region s;
    sublime.SelClear ].

(** A view as a write leaves it: scratch, with the HTTP-response syntax and
    an empty selection. *)
Definition response_view (v : sublime.View) : Prop :=
  sublime.scratch v = true
  /\ sublime.syntax v = Some "scope:source.http-response"
  /\ sublime.sel v = [].

(** The calls of a sequence of writes, each given by its region and text. *)
Definition calls_of_writes
    (writes : list (sublime.Region * string)) : list sublime.Call :=
  flat_map (fun w => write_calls (fst w) (snd w)) writes.

(** The triangle wave of period 10 between 0 and 5. *)
Definition bounce (n : nat) : Z :=
  Z.of_nat (if (n mod 10 <=? 5)%nat then n mod 10 else 10 - n mod 10)%nat.

(** The step that goes with [bounce]. *)
Definition heading (n : nat) : Z :=
  if (n mod 10 <? 5)%nat then 1 else -1.

(** The number of statements the worker has been given by a schedule. *)
Definition worker_turns (schedule : list Turn) : nat :=
  List.length
    (filter (fun t => match t with WorkerTurn => true | _ => false end)
            schedule).

(** The number of turns of the UI thread in a schedule. *)
Definition ui_turns (schedule : list Turn) : nat :=
  List.length
    (filter (fun t => match t with UiTurn => true | _ => false end)
            schedule).

(** The adapter has been called for [req] and the call has resolved. *)
Definition adapter_resolved (t : HttpRequestThread) : bool :=
  existsb (fun ev => match ev with Resolved _ _ => true | _ => false end)
          (adapter_log t).

(** The Success side of the outcome is populated with [r], and only it. *)
Definition success_side (t : HttpRequestThread) (r : Response) : Prop :=
  success t = Some true /\ response t = Some r /\ error t = None.

(** The Failure side of the outcome is populated with [e] and its
    diagnostic, and only it. *)
Definition failure_side
    (t : HttpRequestThread) (e : PyException) (diagnostic : string) : Prop :=
  success t = Some false /\ error t = Some (e, diagnostic)
  /\ response t = None.

(** The outcome the adapter result [res] calls for. *)
Definition outcome_of
    (t : HttpRequestThread) (res : AdapterResult PyException) : Prop :=
  match res with
  | Returns r => success_side t r
  | Raises e => failure_side t e (format_exc e)
  end.

(** Two values of the flag [success] are the same. *)
Definition same_flag (x y : option bool) : bool :=
  match x, y with
  | None, None => true
  | Some b, Some b' => Bool.eqb b b'
  | _, _ => false
  end.

(** The number of turns of a schedule, run from [c], that change the flag
    [success] of the thread. *)
Fixpoint flag_writes (schedule : list Turn) (c : Cycle) : nat :=
  match schedule with
  | [] => 0%nat
  | t :: rest =>
      ((if same_flag (success (thread (turn t c))) (success (thread c))
        then 0 else 1)
       + flag_writes rest (turn t c))%nat
  end.

(** The adapter result as the three outcome attributes hold it once the
    [try] statement is over. *)
Definition returned (res : AdapterResult PyException) : bool :=
  match res with Returns _ => true | Raises _ => false end.

Definition response_of (res : AdapterResult PyException) : option Response :=
  match res with Returns r => Some r | Raises _ => None end.

Definition error_of
    (res : AdapterResult PyException) : option (PyException * string) :=
  match res with Returns _ => None | Raises e => Some (e, format_exc e) end.

(** The number of statements [run] executes for an adapter result. *)
Definition run_length (res : AdapterResult PyException) : nat :=
  match res with Returns _ => 6%nat | Raises _ => 7%nat end.

(** The flag [success] of a started thread after [k] of its statements: set
    by the last but two. *)
Definition flag_after
    (res : AdapterResult PyException) (k : nat) : option bool :=
  if (k + 2 <? run_length res)%nat then None else Some (returned res).

(** The line a started thread is at after [k] of its statements. *)
Definition line_after (res : AdapterResult PyException) (k : nat) : Line :=
  match k, res with
  | 0%nat, _ => L37
  | 1%nat, _ => L39
  | 2%nat, _ => L39_blocked
  | 3%nat, Returns _ => L40
  | 3%nat, Raises exc => L42 exc
  | 4%nat, Returns _ => L45
  | 4%nat, Raises _ => L43
  | 5%nat, Returns _ => L46
  | 5%nat, Raises _ => L45
  | 6%nat, Returns _ => Returned
  | 6%nat, Raises _ => L46
  | _, _ => Returned
  end.

(** The texts of the writes a view has received, oldest first. *)
Definition rendered (v : sublime.View) : list string :=
  flat_map (fun call =>
              match call with
              | sublime.Replace _ s => [s]
              | _ => []
              end)
           (sublime.calls v).

(** The indicators of the first [k] positions of the walk. *)
Definition frames (k : nat) : list string :=
  map (fun i => throbber (fst (poller i))) (seq 0 k).

(** The writes a panel has received in a cycle for [req], after those it
    had received [before], are in order: the first frame, the indicators of
    the first [k] positions of the walk for some [k], and, only when the
    queue is empty, at most one more text, which is the text the panel
    shows.  A queued tick is at the [k]-th state of the walk, and the queue
    holds no second callback. *)
Definition writes_in_order
    (req : Request) (before : list string) (c : Cycle) : Prop :=
  exists k,
    match timeouts c with
    | [] =>
        exists final,
          rendered (panel_view c)
          = (before ++ waiting_frame req :: frames k ++ final)%list
          /\ (final = [] \/ final = [sublime.text (panel_view c)])
    | [(Poll position step, _)] =>
        poller k = (position, step)
        /\ rendered (panel_view c)
           = (before ++ waiting_frame req :: frames k)%list
    | [(_, _)] =>
        rendered (panel_view c)
        = (before ++ waiting_frame req :: frames k)%list
    | _ => False
    end.

(** A schedule without the turns of the UI thread. *)
Definition without_ui (schedule : list Turn) : list Turn :=
  filter (fun t => match t with UiTurn => false | _ => true end) schedule.

(** The timing of a returned thread: [elapsed] is the difference of the two
    readings of the clock, and the one call of the adapter, for [req] and
    resolving as [res], lies between them. *)
Definition measured_across
    (t : HttpRequestThread) (req : Request)
    (res : AdapterResult PyException) : Prop :=
  exists s t1 t2 e,
    _start t = Some s /\ _end t = Some e /\ elapsed t = Some (e - s)
    /\ s <= t1 /\ t1 <= t2 /\ t2 <= e
    /\ adapter_log t = [Invoked req t1; Resolved res t2].

(** Exactly one side of the outcome is populated. *)
Definition exactly_one_side (t : HttpRequestThread) : Prop :=
  ((exists r, success_side t r)
   /\ ~ (exists e diagnostic, failure_side t e diagnostic))
  \/ ((exists e diagnostic, failure_side t e diagnostic)
      /\ ~ (exists r, success_side t r)).

(** The states of a started thread for [req], with the clock at [now]: one
    per line, in closed form.  [s], [t1], [t2] and [e] are the readings of
    the clock at line 37, at the call of the adapter, at its resolution and
    at line 45. *)
Inductive thread_inv (req : Request) (now : Z) : HttpRequestThread -> Prop :=
| at_L37 :
    thread_inv req now
      {| request := req; success := None; response := None; error := None;
         _start := None; _end := None; elapsed := None;
         line := L37; adapter_log := [] |}
| at_L39 s :
    s <= now ->
    thread_inv req now
      {| request := req; success := None; response := None; error := None;
         _start := Some s; _end := None; elapsed := None;
         line := L39; adapter_log := [] |}
| at_L39_blocked s t1 :
    s <= t1 <= now ->
    thread_inv req now
      {| request := req; success := None; response := None; error := None;
         _start := Some s; _end := None; elapsed := None;
         line := L39_blocked; adapter_log := [Invoked req t1] |}
| at_L40 s t1 t2 r :
    client_request req = Returns r ->
    s <= t1 <= t2 -> t2 <= now ->
    thread_inv req now
      {| request := req; success := None; response := Some r; error := None;
         _start := Some s; _end := None; elapsed := None;
         line := L40;
         adapter_log := [Invoked req t1; Resolved (Returns r) t2] |}
| at_L42 s t1 t2 exc :
    client_request req = Raises exc ->
    s <= t1 <= t2 -> t2 <= now ->
    thread_inv req now
      {| request := req; success := None; response := None; error := None;
         _start := Some s; _end := None; elapsed := None;
         line := L42 exc;
         adapter_log := [Invoked req t1; Resolved (Raises exc) t2] |}
| at_L43 s t1 t2 exc :
    client_request req = Raises exc ->
    s <= t1 <= t2 -> t2 <= now ->
    thread_inv req now
      {| request := req; success := None; response := None;
         error := Some (exc, format_exc exc);
         _start := Some s; _end := None; elapsed := None;
         line := L43;
         adapter_log := [Invoked req t1; Resolved (Raises exc) t2] |}
| at_L45 s t1 t2 res :
    client_request req = res ->
    s <= t1 <= t2 -> t2 <= now ->
    thread_inv req now
      {| request := req; success := Some (returned res);
         response := response_of res; error := error_of res;
         _start := Some s; _end := None; elapsed := None;
         line := L45; adapter_log := [Invoked req t1; Resolved res t2] |}
| at_L46 s t1 t2 e res :
    client_request req = res ->
    s <= t1 <= t2 -> t2 <= e <= now ->
    thread_inv req now
      {| request := req; success := Some (returned res);
         response := response_of res; error := error_of res;
         _start := Some s; _end := Some e; elapsed := None;
         line := L46; adapter_log := [Invoked req t1; Resolved res t2] |}
| at_Returned s t1 t2 e res :
    client_request req = res ->
    s <= t1 <= t2 -> t2 <= e <= now ->
    thread_inv req now
      {| request := req; success := Some (returned res);
         response := response_of res; error := error_of res;
         _start := Some s; _end := Some e; elapsed := Some (e - s);
         line := Returned; adapter_log := [Invoked req t1; Resolved res t2] |}.

(** The states of the UI side of a cycle for [req]: the text of the panel,
    the queue of callbacks and the console.  While the poller runs, and until
    the result is written, the panel shows a frame; the queue never holds
    more than one callback. *)
Inductive ui_inv (req : Request) :
  sublime.View -> list (Callback * Z) -> list Fault -> Prop :=
| ui_polling v k span delay :
    sublime.text v = frame req span ->
    String.length span = 6%nat ->
    ui_inv req v [(Poll (fst (poller k)) (snd (poller k)), delay)] []
| ui_success_queued v r span :
    client_request req = Returns r ->
    sublime.text v = frame req span ->
    String.length span = 6%nat ->
    ui_inv req v [(OnSuccess r, 0)] []
| ui_error_queued v exc span :
    client_request req = Raises exc ->
    sublime.text v = frame req span ->
    String.length span = 6%nat ->
    ui_inv req v [(OnError exc (format_exc exc), 0)] []
| ui_success_shown v r phrase :
    client_request req = Returns r ->
    HTTPStatus (status r) = Some phrase ->
    sublime.text v = success_output req r phrase ->
    ui_inv req v [] []
| ui_success_fault v r span :
    client_request req = Returns r ->
    HTTPStatus (status r) = None ->
    sublime.text v = frame req span ->
    String.length span = 6%nat ->
    ui_inv req v [] [ValueError (status r)]
| ui_error_shown v exc :
    client_request req = Raises exc ->
    sublime.text v = error_output req exc (format_exc exc) ->
    ui_inv req v [] [].

(** The poller is still queued. *)
Definition polling (q : list (Callback * Z)) : bool :=
  match q with
  | (Poll _ _, _) :: _ => true
  | _ => false
  end.

(** The invariant of a request cycle for [req]: the thread and the UI side
    are in one of their states, and the poller has left the queue only if
    the thread is no longer alive. *)
Definition cycle_inv (req : Request) (c : Cycle) : Prop :=
  thread_inv req (clock c) (thread c)
  /\ ui_inv req (panel_view c) (timeouts c) (console c)
  /\ (polling (timeouts c) = false -> is_alive (thread c) = false).

(** Both attributes of the command are assigned. *)
Definition attributes_set (cmd : RestRequestCommand) : Prop :=
  self_request cmd <> None /\ self_panel_view cmd <> None.

(** Where a queued callback comes from, [asked] being the requests of the
    threads started so far: a closure of [poll] holds one of these threads
    and the bounds of the frame written for its request; a response or an
    error on its way to the panel is what the adapter gave for one of the
    requests. *)
Definition job_origin (asked : list Request) (queued : Job * Z) : Prop :=
  match fst queued with
  | PollJob worker lo hi _ _ =>
      exists req,
        nth_error asked worker = Some req
        /\ lo = throbber_start req /\ hi = throbber_end req
  | SuccessJob r =>
      exists req, In req asked /\ client_request req = Returns r
  | ErrorJob exception trace =>
      exists req,
        In req asked /\ client_request req = Raises exception
        /\ trace = format_exc exception
  end.

(** A report that is neither an attribute read too early nor a failed
    assertion of [poll]: an exception the parser raised for some view, or the
    [ValueError] of a status code that [HTTPStatus] does not know. *)
Definition benign (r : Report) : Prop :=
  match r with
  | AttributeError _ => False
  | CallbackRaised AssertionError => False
  | CallbackRaised (ValueError code) => HTTPStatus code = None
  | RunRaised e => exists view, parse view = ParseFails e
  end.

(** The requests of the invocations that found an active view whose text
    parses, in the order of the invocations. *)
Definition parsed_requests (l : list Step) : list Request :=
  flat_map
    (fun s =>
       match s with
       | Invoke (Some view) _ =>
           match parse view with
           | Parsed req => [req]
           | ParseFails _ => []
           end
       | _ => []
       end) l.

(** The calls on the window of one invocation that gets past the parser. *)
Definition panel_shown : list WindowCall :=
  [CreateOutputPanel "REST Client Response";
   ShowPanel "output.REST Client Response"].

(** The invariant of the command object: every thread is in a state of
    [run] for its own request; every queued callback comes from one of the
    threads; callbacks are queued only once the attributes are assigned; and
    the reports are benign. *)
Definition command_inv (cmd : RestRequestCommand) : Prop :=
  Forall (fun t => thread_inv (request t) (wall_clock cmd) t) (threads cmd)
  /\ Forall (job_origin (map request (threads cmd))) (callbacks cmd)
  /\ (attributes_set cmd \/ callbacks cmd = [])
  /\ Forall benign (reports cmd).

(** The command on which a single invocation for [req] is in flight holds
    what the cycle [c] holds. *)
Definition mirrors (req : Request) (cmd : RestRequestCommand) (c : Cycle)
  : Prop :=
  self_request cmd = Some req
  /\ self_panel_view cmd = Some (panel_view c)
  /\ threads cmd = [thread c]
  /\ callbacks cmd = map (job_of_callback req) (timeouts c)
  /\ reports cmd = map CallbackRaised (console c)
  /\ wall_clock cmd = clock c
  /\ window_calls cmd = panel_shown.

(* ================================================================== *)
(** ** Strings *)

Lemma append_assoc (s1 s2 s3 : string) : (s1 ++ s2) ++ s3 = s1 ++ s2 ++ s3.
Proof.
  induction s1 as [|c s1 IH]; simpl; [reflexivity|].
  now rewrite IH.
Qed.

Lemma append_empty_r (s : string) : s ++ EmptyString = s.
Proof.
  induction s as [|c s IH]; simpl; [reflexivity|].
  now rewrite IH.
Qed.

Lemma length_append (s1 s2 : string) :
  String.length (s1 ++ s2) = (String.length s1 + String.length s2)%nat.
Proof.
  induction s1 as [|c s1 IH]; simpl; [reflexivity|].
  now rewrite IH.
Qed.

Lemma str_take_append (s1 s2 : string) :
  str_take (String.length s1) (s1 ++ s2) = s1.
Proof.
  induction s1 as [|c s1 IH]; simpl.
  - now destruct s2.
  - now rewrite IH.
Qed.

Lemma str_drop_append (s1 s2 : string) :
  str_drop (String.length s1) (s1 ++ s2) = s2.
Proof.
  induction s1 as [|c s1 IH]; simpl; [reflexivity|exact IH].
Qed.

Lemma str_drop_all (s : string) : str_drop (String.length s) s = EmptyString.
Proof.
  induction s as [|c s IH]; simpl; [reflexivity|exact IH].
Qed.

Lemma str_take_0 (s : string) : str_take 0 s = EmptyString.
Proof. now destruct s. Qed.

Lemma length_str_repeat (c : ascii) (n : nat) :
  String.length (str_repeat (String c EmptyString) n) = n.
Proof.
  induction n as [|n IH]; simpl; [reflexivity|].
  now rewrite IH.
Qed.

(* ================================================================== *)
(** ** The panel command *)

Lemma py_or_None (d : Z) : py_or None d = d.
Proof. reflexivity. Qed.

Lemma py_or_Some (v d : Z) : v <> 0 -> py_or (Some v) d = v.
Proof.
  intros Hv. unfold py_or.
  destruct (Z.eqb_spec v 0) as [->|_]; [contradiction|reflexivity].
Qed.

(** A write without bounds leaves exactly the text written. *)
Lemma text_update_full (v : sublime.View) (s : string) :
  sublime.text (update_rest_response_panel v s None None) = s.
Proof.
  unfold update_rest_response_panel, sublime.replace, sublime.begin_,
    sublime.end_, sublime.size, len; simpl.
  rewrite Z.min_l, Z.max_r by lia.
  rewrite Nat2Z.id, str_drop_all, append_empty_r.
  reflexivity.
Qed.

(** A write with bounds [lo < hi] inside the text keeps what is before [lo]
    and what is from [hi] on. *)
Lemma text_update_span (v : sublime.View) (before old after s : string) :
  sublime.text v = before ++ old ++ after ->
  before <> EmptyString ->
  sublime.text
    (update_rest_response_panel v s
       (Some (len before)) (Some (len before + len old)))
  = before ++ s ++ after.
Proof.
  intros Htext Hne.
  assert (Hpos : 0 < len before).
  { unfold len. destruct before; [contradiction|simpl; lia]. }
  assert (Hold : 0 <= len old) by (unfold len; lia).
  unfold update_rest_response_panel.
  rewrite !py_or_Some by lia.
  unfold sublime.replace, sublime.begin_, sublime.end_; simpl.
  rewrite Z.min_l, Z.max_r by lia.
  rewrite Htext.
  unfold len. rewrite <- Nat2Z.inj_add, !Nat2Z.id.
  rewrite str_take_append.
  rewrite <- length_append, <- (append_assoc before old after).
  rewrite str_drop_append.
  reflexivity.
Qed.

(* ================================================================== *)
(** ** The throbber *)

Lemma succ_mod_10 (n : nat) :
  (S n mod 10 = if n mod 10 =? 9 then 0 else S (n mod 10))%nat.
Proof.
  pose proof (Nat.mod_upper_bound n 10 ltac:(lia)) as Hlt.
  replace (S n) with (n + 1)%nat by lia.
  rewrite <- Nat.Div0.add_mod_idemp_l.
  remember (n mod 10)%nat as r eqn:Hr. clear Hr.
  do 10 (destruct r as [|r]; [reflexivity|]).
  lia.
Qed.

(** The poller in closed form. *)
Lemma poller_closed (n : nat) : poller n = (bounce n, heading n).
Proof.
  induction n as [|n IH]; [reflexivity|].
  cbn [poller]. rewrite IH. cbn [fst snd].
  unfold advance, bounce, heading. rewrite succ_mod_10.
  pose proof (Nat.mod_upper_bound n 10 ltac:(lia)) as Hlt.
  remember (n mod 10)%nat as r eqn:Hr. clear Hr.
  do 10 (destruct r as [|r]; [reflexivity|]).
  lia.
Qed.

Lemma bounce_bounds (n : nat) : 0 <= bounce n <= THROBBER_WIDTH - 1.
Proof.
  unfold bounce, THROBBER_WIDTH.
  pose proof (Nat.mod_upper_bound n 10 ltac:(lia)) as Hlt.
  destruct (Nat.leb_spec (n mod 10) 5); lia.
Qed.

Lemma length_throbber (position : Z) :
  0 <= position <= THROBBER_WIDTH - 1 ->
  String.length (throbber position) = 6%nat.
Proof.
  unfold throbber, str_mul, THROBBER_WIDTH. intros Hp.
  rewrite !length_append, !length_str_repeat.
  change (String.length "=") with 1%nat. lia.
Qed.

Lemma frame_prefix_nonempty (req : Request) : frame_prefix req <> EmptyString.
Proof.
  intros H. apply (f_equal String.length) in H.
  unfold frame_prefix in H. rewrite !length_append in H.
  simpl in H. lia.
Qed.

Lemma waiting_frame_frame (req : Request) :
  waiting_frame req = frame req (str_mul " " THROBBER_WIDTH).
Proof.
  unfold waiting_frame, frame, frame_prefix, join.
  cbn [concat]. rewrite !append_assoc. reflexivity.
Qed.

Lemma throbber_start_prefix (req : Request) :
  throbber_start req = len (frame_prefix req).
Proof.
  unfold throbber_start, throbber_end. rewrite waiting_frame_frame.
  unfold frame, len, THROBBER_WIDTH.
  rewrite !length_append. simpl. lia.
Qed.

Lemma throbber_end_prefix (req : Request) (span : string) :
  String.length span = 6%nat ->
  throbber_end req = len (frame_prefix req) + len span.
Proof.
  intros Hspan. unfold throbber_end. rewrite waiting_frame_frame.
  unfold frame, len, THROBBER_WIDTH.
  rewrite !length_append, Hspan. simpl. lia.
Qed.

(** A throbber write on a frame gives the frame with the new indicator. *)
Lemma text_update_throbber
    (req : Request) (v : sublime.View) (span : string) (position : Z) :
  sublime.text v = frame req span ->
  String.length span = 6%nat ->
  sublime.text (update_throbber req v position)
  = frame req (throbber position).
Proof.
  intros Htext Hspan. unfold update_throbber.
  rewrite throbber_start_prefix, (throbber_end_prefix req span Hspan).
  apply text_update_span; [exact Htext|apply frame_prefix_nonempty].
Qed.

(* ================================================================== *)
(** ** The invariant of a cycle *)

Lemma thread_inv_start (req : Request) (now : Z) :
  thread_inv req now (start (HttpRequestThread_init req)).
Proof. apply at_L37. Qed.

Lemma thread_inv_later (req : Request) (now now' : Z) (t : HttpRequestThread) :
  now <= now' -> thread_inv req now t -> thread_inv req now' t.
Proof.
  intros Hle H.
  destruct H; econstructor; eauto; lia.
Qed.

Lemma thread_inv_run_step (req : Request) (now : Z) (t : HttpRequestThread) :
  thread_inv req now t -> thread_inv req now (run_step now t).
Proof.
  intros H.
  destruct H as [ | s Hs | s t1 Ht | s t1 t2 r Hr Ht Hn
                | s t1 t2 exc Hr Ht Hn | s t1 t2 exc Hr Ht Hn
                | s t1 t2 res Hr Ht Hn | s t1 t2 e res Hr Ht Hn
                | s t1 t2 e res Hr Ht Hn ];
    unfold run_step; cbn [line request success response error _start _end
                          elapsed adapter_log].
  - apply at_L39. lia.
  - apply at_L39_blocked. lia.
  - destruct (client_request req) as [r|exc] eqn:Hres.
    + apply at_L40; [exact Hres|lia|lia].
    + apply at_L42; [exact Hres|lia|lia].
  - apply (at_L45 req now s t1 t2 (Returns r)); [exact Hr|lia|lia].
  - apply at_L43; [exact Hr|lia|lia].
  - apply (at_L45 req now s t1 t2 (Raises exc)); [exact Hr|lia|lia].
  - apply at_L46; [exact Hr|lia|lia].
  - apply at_Returned; [exact Hr|lia|lia].
  - apply at_Returned; [exact Hr|lia|lia].
Qed.

Lemma ui_inv_first_frame (req : Request) (panel : sublime.View) :
  ui_inv req (update_rest_response_panel panel (waiting_frame req) None None)
    [(Poll 0 1, 0)] [].
Proof.
  apply (ui_polling req _ 0%nat (str_mul " " THROBBER_WIDTH) 0).
  - rewrite text_update_full. apply waiting_frame_frame.
  - reflexivity.
Qed.

Lemma cycle_inv_send_request (req : Request) (panel : sublime.View) (now : Z) :
  cycle_inv req (send_request req panel now).
Proof.
  split; [|split]; cbn.
  - apply at_L37.
  - apply ui_inv_first_frame.
  - discriminate.
Qed.

(** A thread that is not alive has returned, with its outcome written. *)
Lemma thread_inv_not_alive (req : Request) (now : Z) (t : HttpRequestThread) :
  thread_inv req now t ->
  is_alive t = false ->
  line t = Returned
  /\ success t = Some (returned (client_request req))
  /\ response t = response_of (client_request req)
  /\ error t = error_of (client_request req).
Proof.
  intros H Halive.
  destruct H; try discriminate Halive.
  subst res. cbn. auto.
Qed.

Lemma cycle_inv_poll (req : Request) (c : Cycle) (k : nat) (span : string) :
  thread_inv req (clock c) (thread c) ->
  sublime.text (panel_view c) = frame req span ->
  String.length span = 6%nat ->
  timeouts c = [] ->
  console c = [] ->
  cycle_inv req (poll c (fst (poller k)) (snd (poller k))).
Proof.
  intros Ht Htext Hspan Hq Hcon.
  assert (Hreq : request (thread c) = req) by (destruct Ht; reflexivity).
  unfold poll.
  destruct (is_alive (thread c)) eqn:Halive; cbn [negb].
  - split; [|split]; cbn; [exact Ht| |].
    + rewrite Hq, Hcon, Hreq. cbn [app].
      apply (ui_polling req _ (S k) (throbber (fst (poller k)))).
      * apply (text_update_throbber req _ span); assumption.
      * apply length_throbber. rewrite poller_closed. apply bounce_bounds.
    + rewrite Hq. discriminate.
  - destruct (thread_inv_not_alive req _ _ Ht Halive)
      as (_ & Hs & Hr & He).
    rewrite Hs, Hr, He.
    destruct (client_request req) as [r|exc] eqn:Hres; cbn.
    + split; [|split]; cbn; [exact Ht| |intros _; exact Halive].
      rewrite Hq, Hcon. cbn [app].
      apply (ui_success_queued req _ r span); assumption.
    + split; [|split]; cbn; [exact Ht| |intros _; exact Halive].
      rewrite Hq, Hcon. cbn [app].
      apply (ui_error_queued req _ exc span); assumption.
Qed.

Lemma is_alive_run_step (now : Z) (t : HttpRequestThread) :
  is_alive t = false -> run_step now t = t.
Proof.
  unfold is_alive, run_step. destruct (line t); intros H;
    try discriminate H; reflexivity.
Qed.

Lemma cycle_inv_turn (req : Request) (t : Turn) (c : Cycle) :
  cycle_inv req c -> cycle_inv req (turn t c).
Proof.
  destruct c as [th v q con clk]. unfold cycle_inv.
  cbn [thread panel_view timeouts console clock]. intros (Ht & Hu & Hd).
  assert (Hreq : request th = req) by (destruct Ht; reflexivity).
  destruct t as [ | | ticks]; cbn [turn thread panel_view timeouts console
                                   clock].
  - split; [apply thread_inv_run_step; exact Ht|]. split; [exact Hu|].
    intros Hq. rewrite (is_alive_run_step clk th (Hd Hq)). exact (Hd Hq).
  - destruct Hu as [ v k span delay Htext Hspan
                   | v r span Hres Htext Hspan
                   | v exc span Hres Htext Hspan
                   | v r phrase Hres Hphrase Htext
                   | v r span Hres Hphrase Htext Hspan
                   | v exc Hres Htext ];
      cbn [run_callback].
    + apply (cycle_inv_poll req _ k span); cbn; auto.
    + unfold on_success. cbn [thread]. rewrite Hreq.
      destruct (HTTPStatus (status r)) as [phrase|] eqn:Hphrase.
      * split; [|split]; cbn; [exact Ht| |intros _; exact (Hd eq_refl)].
        apply (ui_success_shown req _ r phrase); auto.
        apply text_update_full.
      * split; [|split]; cbn; [exact Ht| |intros _; exact (Hd eq_refl)].
        apply (ui_success_fault req _ r span); auto.
    + unfold on_error. cbn [thread]. rewrite Hreq.
      split; [|split]; cbn; [exact Ht| |intros _; exact (Hd eq_refl)].
      apply (ui_error_shown req _ exc); auto.
      apply text_update_full.
    + split; [exact Ht|]. split; [|exact Hd]. eapply ui_success_shown; eauto.
    + split; [exact Ht|]. split; [|exact Hd]. eapply ui_success_fault; eauto.
    + split; [exact Ht|]. split; [|exact Hd]. eapply ui_error_shown; eauto.
  - split; [|split; [exact Hu|exact Hd]].
    apply (thread_inv_later req clk); [lia|exact Ht].
Qed.

Lemma cycle_inv_exec (req : Request) (schedule : list Turn) (c : Cycle) :
  cycle_inv req c -> cycle_inv req (exec schedule c).
Proof.
  revert c. induction schedule as [|t schedule IH]; intros c H; cbn.
  - exact H.
  - apply IH, cycle_inv_turn, H.
Qed.

(** Every state a schedule reaches from [send_request] satisfies the
    invariant. *)
Lemma reachable_inv
    (req : Request) (panel : sublime.View) (now : Z) (schedule : list Turn) :
  cycle_inv req (exec schedule (send_request req panel now)).
Proof. apply cycle_inv_exec, cycle_inv_send_request. Qed.

(* ================================================================== *)
(** ** Progress of the worker *)

Lemma exec_app (schedule schedule' : list Turn) (c : Cycle) :
  exec (schedule ++ schedule') c = exec schedule' (exec schedule c).
Proof. unfold exec. apply fold_left_app. Qed.

Lemma worker_turns_app (schedule schedule' : list Turn) :
  worker_turns (schedule ++ schedule')
  = (worker_turns schedule + worker_turns schedule')%nat.
Proof. unfold worker_turns. now rewrite filter_app, length_app. Qed.

(** The UI thread does not touch the thread object. *)
Lemma thread_run_callback (c : Cycle) (callback : Callback) :
  thread (run_callback c callback) = thread c.
Proof.
  destruct callback as [position step|r|exc trace]; cbn.
  - unfold poll.
    destruct (is_alive (thread c)); cbn; [reflexivity|].
    destruct (success (thread c)) as [[|]|];
      try (destruct (response (thread c)); reflexivity);
      destruct (error (thread c)) as [[? ?]|]; reflexivity.
  - unfold on_success. destruct (HTTPStatus (status r)); reflexivity.
  - reflexivity.
Qed.

Lemma thread_turn_ui (c : Cycle) : thread (turn UiTurn c) = thread c.
Proof.
  cbn. destruct (timeouts c) as [|[callback delay] rest]; [reflexivity|].
  now rewrite thread_run_callback.
Qed.

Lemma line_run_step (req : Request) (now : Z) (t : HttpRequestThread) (k : nat) :
  request t = req ->
  line t = line_after (client_request req) k ->
  request (run_step now t) = req
  /\ line (run_step now t) = line_after (client_request req) (S k).
Proof.
  intros Hreq Hline. unfold run_step. rewrite Hline, Hreq.
  do 7 (destruct k as [|k];
        [destruct (client_request req); cbn; auto|]).
  destruct (client_request req); cbn; auto.
Qed.

Lemma line_exec (req : Request) (schedule : list Turn) (c : Cycle) (k : nat) :
  request (thread c) = req ->
  line (thread c) = line_after (client_request req) k ->
  request (thread (exec schedule c)) = req
  /\ line (thread (exec schedule c))
     = line_after (client_request req) (k + worker_turns schedule).
Proof.
  revert c k. induction schedule as [|t schedule IH]; intros c k Hreq Hline.
  - cbn. rewrite Nat.add_0_r. auto.
  - change (exec (t :: schedule) c) with (exec schedule (turn t c)).
    destruct t as [ | |ticks].
    + destruct (line_run_step req (clock c) (thread c) k Hreq Hline)
        as [Hreq' Hline'].
      change (worker_turns (WorkerTurn :: schedule))
        with (S (worker_turns schedule)).
      rewrite Nat.add_succ_r, <- Nat.add_succ_l.
      apply IH; assumption.
    + change (worker_turns (UiTurn :: schedule))
        with (worker_turns schedule).
      apply IH; rewrite thread_turn_ui; assumption.
    + change (worker_turns (TimePasses ticks :: schedule))
        with (worker_turns schedule).
      apply IH; assumption.
Qed.

(** The line of the worker is a function of the statements it was given. *)
Lemma line_reached
    (req : Request) (panel : sublime.View) (now : Z) (schedule : list Turn) :
  line (thread (exec schedule (send_request req panel now)))
  = line_after (client_request req) (worker_turns schedule).
Proof.
  apply (line_exec req schedule (send_request req panel now) 0); reflexivity.
Qed.

Lemma line_after_returned (res : AdapterResult PyException) (k : nat) :
  line_after res k = Returned <-> (run_length res <= k)%nat.
Proof.
  unfold run_length.
  do 7 (destruct k as [|k];
        [destruct res; cbn; split; intros H;
         try discriminate H; try reflexivity; lia|]).
  destruct res; cbn; split; intros; try reflexivity; lia.
Qed.

Lemma is_alive_reached
    (req : Request) (panel : sublime.View) (now : Z) (schedule : list Turn) :
  is_alive (thread (exec schedule (send_request req panel now))) = false
  <-> (run_length (client_request req) <= worker_turns schedule)%nat.
Proof.
  rewrite <- line_after_returned, <- (line_reached req panel now schedule).
  pose proof (reachable_inv req panel now schedule) as [Ht _].
  unfold is_alive.
  destruct Ht; cbn; split; intros Hline; congruence.
Qed.

Lemma thread_inv_returned (req : Request) (now : Z) (t : HttpRequestThread) :
  thread_inv req now t ->
  line t = Returned ->
  outcome_of t (client_request req)
  /\ measured_across t req (client_request req).
Proof.
  intros H Hline.
  destruct H as [ | | | | | | | | s t1 t2 e res Hres Ht He ];
    try discriminate Hline.
  rewrite Hres. split.
  - destruct res; cbn; repeat split.
  - exists s, t1, t2, e. cbn. repeat split; lia.
Qed.

(** Where the flag [success] is set, the outcome is the one the adapter
    result calls for, and the call of the adapter is in the log. *)
Lemma thread_inv_flag (req : Request) (now : Z) (t : HttpRequestThread) :
  thread_inv req now t ->
  success t <> None ->
  outcome_of t (client_request req) /\ adapter_resolved t = true.
Proof.
  intros H Hflag.
  destruct H as [ | | | | | | s t1 t2 res Hres | s t1 t2 e res Hres
                | s t1 t2 e res Hres ];
    cbn in Hflag; try congruence;
    rewrite Hres; (split; [destruct res; cbn; repeat split|reflexivity]).
Qed.

Lemma outcome_exactly_one (t : HttpRequestThread)
    (res : AdapterResult PyException) :
  outcome_of t res -> exactly_one_side t.
Proof.
  destruct res as [r|exc]; cbn; intros (Hs & H1 & H2).
  - left. split.
    + exists r. repeat split; assumption.
    + intros (e & d & Hs' & _). congruence.
  - right. split.
    + exists exc, (format_exc exc). repeat split; assumption.
    + intros (r & Hs' & _). congruence.
Qed.

Lemma outcome_stable_step (req : Request) (now : Z) (t : HttpRequestThread) :
  thread_inv req now t ->
  success t <> None ->
  success (run_step now t) = success t
  /\ response (run_step now t) = response t
  /\ error (run_step now t) = error t.
Proof.
  intros H Hflag.
  destruct H; cbn in Hflag; try congruence; cbn; auto.
Qed.

Lemma outcome_stable_exec (req : Request) (schedule : list Turn) (c : Cycle) :
  cycle_inv req c ->
  success (thread c) <> None ->
  success (thread (exec schedule c)) = success (thread c)
  /\ response (thread (exec schedule c)) = response (thread c)
  /\ error (thread (exec schedule c)) = error (thread c).
Proof.
  revert c. induction schedule as [|t schedule IH]; intros c Hinv Hflag.
  - cbn. auto.
  - change (exec (t :: schedule) c) with (exec schedule (turn t c)).
    assert (Hstep : success (thread (turn t c)) = success (thread c)
                    /\ response (thread (turn t c)) = response (thread c)
                    /\ error (thread (turn t c)) = error (thread c)).
    { destruct t as [ | |ticks].
      - apply (outcome_stable_step req); [apply Hinv|exact Hflag].
      - rewrite thread_turn_ui. auto.
      - cbn. auto. }
    destruct Hstep as (Hs & Hr & He).
    destruct (IH (turn t c)) as (Hs' & Hr' & He').
    + apply cycle_inv_turn, Hinv.
    + congruence.
    + repeat split; congruence.
Qed.

(** The accessors raise as long as the flag is not set. *)
Lemma accessors_before_flag (t : HttpRequestThread) :
  success t = None ->
  get_response t
  = RestException "Attempted to retrieve response before completion"
  /\ get_error t
     = RestException "Attempted to retrieve error before completion".
Proof.
  intros Hs. unfold get_response, get_error. rewrite Hs. split; reflexivity.
Qed.

(** The flag is unset exactly until the statement that sets it has run: the
    last but two of [run]. *)
Lemma flag_unset_reached
    (req : Request) (panel : sublime.View) (now : Z) (schedule : list Turn) :
  success (thread (exec schedule (send_request req panel now))) = None
  <-> (worker_turns schedule + 2 < run_length (client_request req))%nat.
Proof.
  pose proof (line_reached req panel now schedule) as Hline.
  pose proof (reachable_inv req panel now schedule) as [Ht _].
  revert Hline.
  generalize (worker_turns schedule) as k.
  destruct Ht as [ | s Hs | s t1 Ht | s t1 t2 r Hr Ht Hn
                 | s t1 t2 exc Hr Ht Hn | s t1 t2 exc Hr Ht Hn
                 | s t1 t2 res Hr Ht Hn | s t1 t2 e res Hr Ht Hn
                 | s t1 t2 e res Hr Ht Hn ];
    intros k; cbn [line success];
    destruct (client_request req) as [r0|exc0];
    try discriminate Hr; try subst res; try (injection Hr as <-);
    do 7 (destruct k as [|k];
          [ cbn; intros Hline; try discriminate Hline;
            split; intros Hx; try discriminate Hx; try reflexivity; lia | ]);
    cbn; intros Hline; try discriminate Hline;
    split; intros Hx; try discriminate Hx; try reflexivity; lia.
Qed.

(* ================================================================== *)
(** ** Writes, ticks and the end of a cycle *)

Lemma calls_update
    (v : sublime.View) (s : string) (region_start region_end : option Z) :
  sublime.calls (update_rest_response_panel v s region_start region_end)
  = (sublime.calls v
     ++ write_calls
          {| sublime.a := py_or region_start 0;
             sublime.b := py_or region_end (sublime.size v) |} s)%list.
Proof.
  unfold update_rest_response_panel, write_calls. cbn.
  rewrite <- !app_assoc. reflexivity.
Qed.

Lemma rendered_update
    (v : sublime.View) (s : string) (region_start region_end : option Z) :
  rendered (update_rest_response_panel v s region_start region_end)
  = (rendered v ++ [s])%list.
Proof.
  unfold rendered. rewrite calls_update, flat_map_app. reflexivity.
Qed.

(** [n] ticks of the poller while the worker has not moved. *)
Lemma exec_ticks (req : Request) (panel : sublime.View) (now : Z) (n : nat) :
  let c := exec (repeat UiTurn n) (send_request req panel now) in
  thread c = start (HttpRequestThread_init req)
  /\ (exists delay,
        timeouts c = [(Poll (fst (poller n)) (snd (poller n)), delay)])
  /\ rendered (panel_view c)
     = (rendered panel
        ++ waiting_frame req
           :: map (fun k => throbber (fst (poller k))) (seq 0 n))%list.
Proof.
  induction n as [|n IH].
  - cbv zeta. cbn [repeat]. change (exec [] ?c) with c.
    unfold send_request, set_timeout, run_command.
    cbn [thread timeouts panel_view app]. repeat split.
    + exists 0. reflexivity.
    + apply rendered_update.
  - change (repeat UiTurn (S n)) with (UiTurn :: repeat UiTurn n).
    rewrite repeat_cons, exec_app.
    cbv zeta in IH.
    destruct (exec (repeat UiTurn n) (send_request req panel now))
      as [th v q con clk].
    cbn [thread timeouts panel_view] in IH.
    destruct IH as (Hth & (delay & Hq) & Hr). subst th q.
    cbv zeta. change (exec [UiTurn] ?c) with (turn UiTurn c).
    cbn [turn timeouts run_callback]. unfold poll, set_timeout.
    cbn [thread is_alive start goto line negb timeouts panel_view app request
         HttpRequestThread_init].
    repeat split.
    + exists THROBBER_REFRESH_RATE. reflexivity.
    + unfold update_throbber. rewrite rendered_update, Hr.
      rewrite seq_S, map_app, <- app_assoc. reflexivity.
Qed.

(** Once the thread is no longer alive, two turns of the UI thread end the
    cycle. *)
Lemma turn_ui_done (req : Request) (c : Cycle) :
  cycle_inv req c ->
  is_alive (thread c) = false ->
  timeouts (turn UiTurn (turn UiTurn c)) = [].
Proof.
  destruct c as [th v q con clk]. unfold cycle_inv.
  cbn [thread panel_view timeouts console clock]. intros (Ht & Hu & _) Halive.
  destruct (thread_inv_not_alive req _ _ Ht Halive) as (_ & Hs & Hr & He).
  destruct Hu; cbn [turn timeouts run_callback]; try reflexivity.
  - unfold poll. cbn [thread]. rewrite Halive, Hs, Hr, He. cbn [negb].
    destruct (client_request req) as [r|exc]; cbn.
    + unfold on_success. destruct (HTTPStatus (status r)); reflexivity.
    + reflexivity.
  - unfold on_success. destruct (HTTPStatus (status r)); reflexivity.
Qed.

Lemma cycle_finishes
    (req : Request) (panel : sublime.View) (now : Z) (schedule : list Turn) :
  (run_length (client_request req) <= worker_turns schedule)%nat ->
  timeouts (exec (schedule ++ [UiTurn; UiTurn]) (send_request req panel now))
  = [].
Proof.
  intros Hlen. rewrite exec_app.
  change (exec [UiTurn; UiTurn] ?c) with (turn UiTurn (turn UiTurn c)).
  apply (turn_ui_done req).
  - apply reachable_inv.
  - apply is_alive_reached, Hlen.
Qed.

(** What the panel and the console hold when the cycle is over. *)
Lemma cycle_inv_over (req : Request) (c : Cycle) :
  cycle_inv req c ->
  timeouts c = [] ->
  match client_request req with
  | Returns r =>
      match HTTPStatus (status r) with
      | Some phrase =>
          sublime.text (panel_view c) = success_output req r phrase
          /\ console c = []
      | None =>
          (exists span, sublime.text (panel_view c) = frame req span)
          /\ console c = [ValueError (status r)]
      end
  | Raises exc =>
      sublime.text (panel_view c) = error_output req exc (format_exc exc)
      /\ console c = []
  end.
Proof.
  destruct c as [th v q con clk]. unfold cycle_inv.
  cbn [thread panel_view timeouts console clock]. intros (_ & Hu & _) Hq.
  destruct Hu as [ v k span delay Htext Hspan
                 | v r span Hres Htext Hspan
                 | v exc span Hres Htext Hspan
                 | v r phrase Hres Hphrase Htext
                 | v r span Hres Hphrase Htext Hspan
                 | v exc Hres Htext ];
    try discriminate Hq; rewrite Hres; try rewrite Hphrase; eauto.
Qed.

(** Until a result is written the panel shows a frame. *)
Lemma cycle_inv_text (req : Request) (c : Cycle) :
  cycle_inv req c ->
  (exists span, sublime.text (panel_view c) = frame req span
                /\ String.length span = 6%nat)
  \/ (exists r phrase,
        client_request req = Returns r
        /\ HTTPStatus (status r) = Some phrase
        /\ sublime.text (panel_view c) = success_output req r phrase)
  \/ (exists exc,
        client_request req = Raises exc
        /\ sublime.text (panel_view c)
           = error_output req exc (format_exc exc)).
Proof.
  intros (_ & Hu & _).
  destruct Hu; eauto 8.
Qed.




Lemma error_output_blocks (req : Request) (exc : PyException) (trace : string) :
  error_output req exc trace
  = three_blocks
      ("REST Client: Error on request to " ++ method req ++ " " ++ url req)
      (repr exc)
      trace.
Proof.
  unfold error_output, three_blocks, join. cbn [concat].
  rewrite !append_assoc. reflexivity.
Qed.

Lemma prefix_append (s1 s2 : string) : prefix s1 (s1 ++ s2) = true.
Proof.
  induction s1 as [|ch s1 IH]; cbn.
  - now destruct s2.
  - destruct (ascii_dec ch ch) as [_|Hne]; [exact IH|contradiction].
Qed.

(* ================================================================== *)
(** ** The worker *)

(** C1: whatever the request and however its call of the transport adapter
    resolves, once the worker has been given the statements of [run] it has
    returned normally (nothing propagates out of [run], and the thread is no
    longer alive) with the outcome recorded: for an adapter call that raises
    [exc], the flag [success] is [False] and [error] holds [exc] together
    with the text of [traceback.format_exc()]; for a call that returns, the
    flag is [True] and [response] holds the response.  In both cases
    [elapsed] is the difference of two readings of the clock that enclose
    the call, and the adapter was called exactly once: there is no retry. *)
Theorem worker_records_outcome
    (req : Request) (panel : sublime.View) (now : Z) (schedule : list Turn) :
  let t := thread (exec schedule (send_request req panel now)) in
  let res := client_request req in
  (run_length res <= worker_turns schedule)%nat ->
  line t = Returned
  /\ is_alive t = false
  /\ match res with
     | Raises exc =>
         success t = Some false
         /\ error t = Some (exc, format_exc exc)
         /\ response t = None
     | Returns r =>
         success t = Some true /\ response t = Some r /\ error t = None
     end
  /\ measured_across t req res.
Proof.
  intros t res Hlen.
  assert (Halive : is_alive t = false) by (apply is_alive_reached, Hlen).
  pose proof (reachable_inv req panel now schedule) as [Ht _].
  fold t in Ht.
  destruct (thread_inv_not_alive req _ t Ht Halive) as (Hline & _).
  destruct (thread_inv_returned req _ t Ht Hline) as [Hout Htime].
  split; [exact Hline|]. split; [exact Halive|].
  split; [|exact Htime].
  fold res in Hout. destruct res; exact Hout.
Qed.

(** The flag of the worker is a function of the statements it was given. *)
Lemma flag_reached
    (req : Request) (panel : sublime.View) (now : Z) (schedule : list Turn) :
  success (thread (exec schedule (send_request req panel now)))
  = flag_after (client_request req) (worker_turns schedule).
Proof.
  unfold flag_after.
  destruct (Nat.ltb_spec (worker_turns schedule + 2)
                         (run_length (client_request req))) as [Hlt|Hge].
  - apply flag_unset_reached, Hlt.
  - pose proof (reachable_inv req panel now schedule) as (Ht & _).
    assert (Hflag : success (thread (exec schedule
                                       (send_request req panel now)))
                    <> None).
    { intros Hnone. apply flag_unset_reached in Hnone. lia. }
    destruct (thread_inv_flag req _ _ Ht Hflag) as [Hout _].
    destruct (client_request req); destruct Hout as (Hs & _); exact Hs.
Qed.

(** Along a schedule, the flag changes once if the statement that sets it is
    among the turns, and not at all otherwise. *)
Lemma flag_writes_reached
    (req : Request) (panel : sublime.View) (now : Z)
    (before schedule : list Turn) :
  let k := worker_turns before in
  let res := client_request req in
  flag_writes schedule (exec before (send_request req panel now))
  = if ((k + 2 <? run_length res)
        && negb (k + worker_turns schedule + 2 <? run_length res))%nat%bool
    then 1%nat else 0%nat.
Proof.
  revert before. induction schedule as [|t schedule IH]; intros before k res.
  - cbn [flag_writes worker_turns filter List.length].
    rewrite Nat.add_0_r. destruct (k + 2 <? run_length res)%nat; reflexivity.
  - cbn [flag_writes].
    change (turn t (exec before (send_request req panel now)))
      with (exec [t] (exec before (send_request req panel now))).
    rewrite <- exec_app, IH, !flag_reached, worker_turns_app.
    fold k res. unfold flag_after.
    assert (Hres : (run_length res = 6 \/ run_length res = 7)%nat)
      by (destruct res; cbn; auto).
    assert (Hret : Bool.eqb (returned res) (returned res) = true)
      by (destruct (returned res); reflexivity).
    destruct t;
      [ change (worker_turns (WorkerTurn :: schedule))
          with (S (worker_turns schedule));
        change (worker_turns [WorkerTurn]) with 1%nat
      | change (worker_turns (UiTurn :: schedule))
          with (worker_turns schedule);
        change (worker_turns [UiTurn]) with 0%nat
      | change (worker_turns (TimePasses ticks :: schedule))
          with (worker_turns schedule);
        change (worker_turns [TimePasses ticks]) with 0%nat ];
      repeat match goal with
             | |- context [(?a <? ?b)%nat] =>
                 destruct (Nat.ltb_spec a b)
             end;
      cbn [same_flag andb negb Nat.add]; rewrite ?Hret; try reflexivity; lia.
Qed.

(** C5: in every state of a cycle, a thread that has returned has exactly
    one side of its outcome populated, the Success side (flag [True] and the
    response) or the Failure side (flag [False], the error and its
    diagnostic), never both and never neither, and on the way there the flag
    [success] was written exactly once.  From the moment the flag is set
    this holds, and no later turn changes the flag, the response or the
    error.  As long as the flag is unset, which is what the accessors call
    before completion, both accessors raise. *)
Theorem outcome_written_once
    (req : Request) (panel : sublime.View) (now : Z)
    (schedule later : list Turn) :
  let c := exec schedule (send_request req panel now) in
  let t := thread c in
  let t' := thread (exec later c) in
  (is_alive t = false ->
   exactly_one_side t
   /\ flag_writes schedule (send_request req panel now) = 1%nat)
  /\ (success t <> None ->
      exactly_one_side t
      /\ flag_writes later c = 0%nat
      /\ success t' = success t
      /\ response t' = response t
      /\ error t' = error t)
  /\ (success t = None ->
      get_response t
      = RestException "Attempted to retrieve response before completion"
      /\ get_error t
         = RestException "Attempted to retrieve error before completion").
Proof.
  intros c t t'.
  pose proof (reachable_inv req panel now schedule) as Hinv.
  fold c in Hinv. destruct Hinv as (Ht & Hu & _).
  split; [|split].
  - intros Halive.
    destruct (thread_inv_not_alive req _ _ Ht Halive) as (Hline & _).
    destruct (thread_inv_returned req _ _ Ht Hline) as [Hout _].
    split; [exact (outcome_exactly_one _ _ Hout)|].
    apply is_alive_reached in Halive.
    pose proof (flag_writes_reached req panel now [] schedule) as Hw.
    cbv zeta in Hw. change (exec [] ?x) with x in Hw. rewrite Hw.
    change (worker_turns []) with 0%nat.
    assert (Hres : (run_length (client_request req) = 6
                    \/ run_length (client_request req) = 7)%nat)
      by (destruct (client_request req); cbn; auto).
    repeat match goal with
           | |- context [(?a <? ?b)%nat] => destruct (Nat.ltb_spec a b)
           end; cbn [andb negb]; try reflexivity; lia.
  - intros Hflag.
    destruct (thread_inv_flag req _ _ Ht Hflag) as [Hout _].
    split; [exact (outcome_exactly_one _ _ Hout)|].
    split.
    + unfold c. rewrite flag_writes_reached.
      assert (Hge : ~ (worker_turns schedule + 2
                       < run_length (client_request req))%nat).
      { intros Hlt. apply Hflag. apply flag_unset_reached, Hlt. }
      destruct (Nat.ltb_spec (worker_turns schedule + 2)
                             (run_length (client_request req)));
        [contradiction|reflexivity].
    + apply (outcome_stable_exec req); [apply reachable_inv|exact Hflag].
  - apply accessors_before_flag.
Qed.

(** C6: an accessor called before the worker has set its flag [success],
    that is on the thread as built and in every state of a cycle up to the
    last but two statements of [run], raises [RestException], each with its
    own message and whatever the number of calls (an accessor is a function
    of the thread and leaves it as it is); once the flag is set, the
    accessor that matches the outcome returns the value recorded:
    [get_response] the response of an adapter call that returned,
    [get_error] the exception and diagnostic of one that raised. *)
Theorem accessors_guard
    (req : Request) (panel : sublime.View) (now : Z) (schedule : list Turn) :
  let t := thread (exec schedule (send_request req panel now)) in
  let res := client_request req in
  let no_response : Access Response :=
    RestException "Attempted to retrieve response before completion" in
  let no_error : Access (PyException * string) :=
    RestException "Attempted to retrieve error before completion" in
  get_response (HttpRequestThread_init req) = no_response
  /\ get_error (HttpRequestThread_init req) = no_error
  /\ (success t = None
      <-> (worker_turns schedule + 2 < run_length res)%nat)
  /\ (success t = None -> get_response t = no_response
                          /\ get_error t = no_error)
  /\ (success t <> None ->
      match res with
      | Returns r => get_response t = Value r
      | Raises exc => get_error t = Value (exc, format_exc exc)
      end).
Proof.
  intros t res no_response no_error.
  split; [reflexivity|]. split; [reflexivity|].
  split; [apply flag_unset_reached|].
  split; [apply accessors_before_flag|].
  intros Hflag.
  pose proof (reachable_inv req panel now schedule) as [Ht _].
  destruct (thread_inv_flag req _ _ Ht Hflag) as [Hout _].
  fold t res in Hout. unfold get_response, get_error.
  destruct res; destruct Hout as (Hs & H1 & H2); fold t.
  - now rewrite Hs, H1.
  - now rewrite Hs, H1.
Qed.


(* ================================================================== *)
(** ** Frames *)

Lemma len_frame (req : Request) (span : string) :
  len (frame req span) = len (frame_prefix req) + len span + 1.
Proof.
  unfold frame, len. rewrite !length_append. cbn [String.length]. lia.
Qed.

Lemma throbber_span_width (req : Request) :
  throbber_end req - throbber_start req = THROBBER_WIDTH.
Proof. unfold throbber_start. lia. Qed.

Lemma before_indicator_frame (req : Request) (span : string) :
  before_indicator req (frame req span) = frame_prefix req.
Proof.
  unfold before_indicator, frame.
  rewrite throbber_start_prefix. unfold len. rewrite Nat2Z.id.
  apply str_take_append.
Qed.

Lemma after_indicator_frame (req : Request) (span : string) :
  String.length span = 6%nat ->
  after_indicator req (frame req span) = "]".
Proof.
  intros Hspan. unfold after_indicator, frame.
  rewrite (throbber_end_prefix req span Hspan). unfold len.
  rewrite <- Nat2Z.inj_add, Nat2Z.id, <- length_append, <- append_assoc.
  apply str_drop_append.
Qed.

Lemma indicator_frame (req : Request) (span : string) :
  String.length span = 6%nat ->
  indicator req (frame req span) = span.
Proof.
  intros Hspan. unfold indicator, frame.
  rewrite throbber_span_width, throbber_start_prefix.
  unfold len. rewrite Nat2Z.id, str_drop_append.
  change (Z.to_nat THROBBER_WIDTH) with 6%nat. rewrite <- Hspan.
  apply str_take_append.
Qed.

(** The indicator shows the mark at [position] and blanks elsewhere. *)
Lemma throbber_cells (position : Z) (i : nat) :
  0 <= position <= THROBBER_WIDTH - 1 ->
  (i < 6)%nat ->
  String.get i (throbber position)
  = Some (if Z.of_nat i =? position then "="%char else " "%char).
Proof.
  unfold THROBBER_WIDTH. intros Hp Hi.
  assert (Hcases : position = 0 \/ position = 1 \/ position = 2
                   \/ position = 3 \/ position = 4 \/ position = 5) by lia.
  do 6 (destruct i as [|i]; [intuition (subst; reflexivity)|]).
  lia.
Qed.

(* ================================================================== *)
(** ** The poller *)

Lemma walk_step (n : nat) :
  let position := bounce n in
  let step := heading n in
  let position' := bounce (S n) in
  let step' := heading (S n) in
  (step = 1 \/ step = -1)
  /\ position' = position + step
  /\ (position' = 0 -> step' = 1)
  /\ (position' = THROBBER_WIDTH - 1 -> step' = -1)
  /\ (step' <> step <-> position' = 0 \/ position' = THROBBER_WIDTH - 1).
Proof.
  unfold bounce, heading, THROBBER_WIDTH. rewrite succ_mod_10.
  pose proof (Nat.mod_upper_bound n 10 ltac:(lia)) as Hlt.
  remember (n mod 10)%nat as r eqn:Hr. clear Hr.
  do 10 (destruct r as [|r]; [cbn; intuition lia|]).
  lia.
Qed.

Lemma ui_turns_app (schedule schedule' : list Turn) :
  ui_turns (schedule ++ schedule')
  = (ui_turns schedule + ui_turns schedule')%nat.
Proof. unfold ui_turns. now rewrite filter_app, length_app. Qed.

(** As long as the worker has statements of [run] left, every turn of the UI
    thread is a tick that draws a frame: the queue holds the state of the
    walk after as many steps as there were such turns, and the panel has
    received the first frame and then the indicators of the walk, in
    order. *)
Lemma ticks_reached
    (req : Request) (panel : sublime.View) (now : Z) (schedule : list Turn) :
  let c := exec schedule (send_request req panel now) in
  let n := ui_turns schedule in
  (worker_turns schedule < run_length (client_request req))%nat ->
  (exists delay,
     timeouts c = [(Poll (fst (poller n)) (snd (poller n)), delay)])
  /\ rendered (panel_view c)
     = (rendered panel
        ++ waiting_frame req
           :: map (fun k => throbber (fst (poller k))) (seq 0 n))%list.
Proof.
  cbv zeta.
  induction schedule as [|t schedule IH] using rev_ind; intros Hlt.
  - destruct (exec_ticks req panel now 0) as (_ & Hq & Hr). auto.
  - rewrite worker_turns_app in Hlt.
    destruct IH as ((delay & Hq) & Hr); [lia|].
    assert (Halive : is_alive (thread (exec schedule
                                         (send_request req panel now)))
                     = true).
    { destruct (is_alive _) eqn:Halive; [reflexivity|].
      apply is_alive_reached in Halive. lia. }
    assert (Hreq : request (thread (exec schedule
                                      (send_request req panel now))) = req).
    { apply (line_exec req schedule (send_request req panel now) 0);
        reflexivity. }
    rewrite exec_app, ui_turns_app.
    change (exec [t] ?c) with (turn t c).
    destruct (exec schedule (send_request req panel now))
      as [th v q con clk].
    cbn [thread timeouts panel_view] in Hq, Hr, Halive, Hreq. subst q.
    destruct t as [ | |ticks].
    + change (ui_turns [WorkerTurn]) with 0%nat. rewrite Nat.add_0_r.
      cbn [turn timeouts panel_view]. eauto.
    + change (ui_turns [UiTurn]) with 1%nat. rewrite Nat.add_1_r.
      cbn [turn timeouts run_callback]. unfold poll, set_timeout.
      cbn [thread timeouts panel_view app]. rewrite Halive, Hreq.
      cbn [negb timeouts panel_view poller]. split.
      * exists THROBBER_REFRESH_RATE. reflexivity.
      * unfold update_throbber. rewrite rendered_update, Hr.
        rewrite seq_S, map_app, <- app_assoc. reflexivity.
    + change (ui_turns [TimePasses ticks]) with 0%nat. rewrite Nat.add_0_r.
      cbn [turn timeouts panel_view]. eauto.
Qed.

(** C2: the poller starts at position 0 with step +1 and the width is 6.
    In a cycle, as long as the worker has statements of [run] left, after
    [n] ticks the queued tick holds the [n]-th state of the walk and the
    panel has received, after the first frame, the indicators of the
    positions of the walk so far, in order.  For every [n], the position
    after [n] ticks stays within 0 and 5; a tick moves it by the step, which
    is +1 or -1; the step is +1 when the new position is 0 and -1 when it is
    5, and it changes on a tick exactly when the new position is 0 or 5; the
    positions are the triangle wave 0,1,2,3,4,5,4,3,2,1,0,1,... *)
Theorem throbber_walk
    (req : Request) (panel : sublime.View) (now : Z) (schedule : list Turn)
    (n : nat) :
  let position := fst (poller n) in
  let step := snd (poller n) in
  let position' := fst (poller (S n)) in
  let step' := snd (poller (S n)) in
  let c := exec schedule (send_request req panel now) in
  let ticks := ui_turns schedule in
  poller 0 = (0, 1)
  /\ THROBBER_WIDTH = 6
  /\ ((worker_turns schedule < run_length (client_request req))%nat ->
      (exists delay,
         timeouts c
         = [(Poll (fst (poller ticks)) (snd (poller ticks)), delay)])
      /\ rendered (panel_view c)
         = (rendered panel
            ++ waiting_frame req
               :: map (fun k => throbber (fst (poller k)))
                      (seq 0 ticks))%list)
  /\ 0 <= position <= THROBBER_WIDTH - 1
  /\ (step = 1 \/ step = -1)
  /\ position' = position + step
  /\ (position' = 0 -> step' = 1)
  /\ (position' = THROBBER_WIDTH - 1 -> step' = -1)
  /\ (step' <> step <-> position' = 0 \/ position' = THROBBER_WIDTH - 1)
  /\ position = bounce n
  /\ map (fun k => fst (poller k)) (seq 0 12)
     = [0; 1; 2; 3; 4; 5; 4; 3; 2; 1; 0; 1].
Proof.
  intros position step position' step' c ticks.
  pose proof (walk_step n) as Hwalk. cbv zeta in Hwalk.
  subst position step position' step'.
  split; [reflexivity|]. split; [reflexivity|].
  split; [apply ticks_reached|].
  rewrite !poller_closed in *. cbn [fst snd].
  split; [apply bounce_bounds|].
  destruct Hwalk as (H1 & H2 & H3 & H4 & H5).
  repeat (split; [assumption|]).
  split; reflexivity.
Qed.

(* ================================================================== *)
(** ** The panel command *)

(** A turn leaves the panel as it is or writes it through the command. *)
Lemma panel_turn (t : Turn) (c : Cycle) :
  panel_view (turn t c) = panel_view c
  \/ exists text region_start region_end,
       panel_view (turn t c)
       = update_rest_response_panel (panel_view c) text
           region_start region_end.
Proof.
  destruct t as [ | |ticks]; cbn [turn panel_view]; auto.
  destruct (timeouts c) as [|[callback delay] rest]; auto.
  destruct callback as [position step|r|exc trace]; cbn [run_callback].
  - unfold poll. cbn [thread panel_view].
    destruct (is_alive (thread c)); cbn [negb].
    + right. unfold update_throbber. cbn. eauto.
    + left.
      destruct (success (thread c)) as [[|]|];
        try (destruct (response (thread c)); reflexivity);
        destruct (error (thread c)) as [[? ?]|]; reflexivity.
  - unfold on_success. destruct (HTTPStatus (status r)); cbn; eauto.
  - right. unfold on_error. cbn. eauto.
Qed.

(** In every state of a cycle the panel is as a write leaves it, and the
    calls it has received since the cycle began are those of a sequence of
    writes. *)
Lemma panel_written
    (req : Request) (panel : sublime.View) (now : Z) (schedule : list Turn) :
  let v := panel_view (exec schedule (send_request req panel now)) in
  response_view v
  /\ exists writes,
       sublime.calls v = (sublime.calls panel ++ calls_of_writes writes)%list.
Proof.
  cbv zeta.
  assert (Hstep : forall v text region_start region_end,
            (exists writes,
               sublime.calls v
               = (sublime.calls panel ++ calls_of_writes writes)%list) ->
            response_view
              (update_rest_response_panel v text region_start region_end)
            /\ exists writes,
                 sublime.calls
                   (update_rest_response_panel v text region_start region_end)
                 = (sublime.calls panel ++ calls_of_writes writes)%list).
  { intros v text rs re (writes & Hcalls). split.
    - repeat split.
    - exists (writes
              ++ [({| sublime.a := py_or rs 0;
                      sublime.b := py_or re (sublime.size v) |}, text)])%list.
      rewrite calls_update, Hcalls. unfold calls_of_writes.
      rewrite flat_map_app, <- app_assoc. cbn [flat_map fst snd].
      rewrite app_nil_r. reflexivity. }
  assert (Hgen : forall c,
            (response_view (panel_view c)
             /\ exists writes,
                  sublime.calls (panel_view c)
                  = (sublime.calls panel ++ calls_of_writes writes)%list) ->
            response_view (panel_view (exec schedule c))
            /\ exists writes,
                 sublime.calls (panel_view (exec schedule c))
                 = (sublime.calls panel ++ calls_of_writes writes)%list).
  { induction schedule as [|t schedule IH]; intros c Hc; [exact Hc|].
    change (exec (t :: schedule) c) with (exec schedule (turn t c)).
    apply IH.
    destruct (panel_turn t c) as [Hsame|(text & rs & re & Hwrite)].
    - rewrite Hsame. exact Hc.
    - rewrite Hwrite. apply Hstep, Hc. }
  apply Hgen.
  unfold send_request, set_timeout, run_command. cbn [panel_view].
  apply Hstep. exists []. cbn. rewrite app_nil_r. reflexivity.
Qed.

(** C8: every write through [UpdateRestResponsePanelCommand.run] makes four
    calls on the view, in this order: it sets the scratch flag, assigns the
    HTTP-response syntax, replaces a region by the text and clears the
    selection; a bound that is omitted defaults to 0 for the start and to
    the size of the view for the end.  A final result, of [on_success] or of
    [on_error], is written with both bounds omitted: the region replaced is
    the full extent from 0 to the size and the text of the view afterwards is
    exactly the text written.  A throbber frame goes through the same
    command, with both bounds given.  In a cycle no turn changes the panel
    in another way, so in every state the panel is scratch, has the
    HTTP-response syntax and an empty selection, and what it has received
    are such groups of four calls. *)
Theorem panel_write_effect
    (c : Cycle) (view : sublime.View) (text : string)
    (region_start region_end : option Z)
    (r : Response) (exc : PyException) (trace : string) (position : Z)
    (req : Request) (panel : sublime.View) (now : Z) (schedule : list Turn)
    (t : Turn) :
  let view' :=
    update_rest_response_panel view text region_start region_end in
  let full := update_rest_response_panel view text None None in
  let reached := exec schedule (send_request req panel now) in
  sublime.calls view'
  = (sublime.calls view
     ++ write_calls
          {| sublime.a := py_or region_start 0;
             sublime.b := py_or region_end (sublime.size view) |} text)%list
  /\ response_view view'
  /\ py_or None 0 = 0
  /\ py_or None (sublime.size view) = sublime.size view
  /\ sublime.calls full
     = (sublime.calls view
        ++ write_calls
             {| sublime.a := 0; sublime.b := sublime.size view |} text)%list
  /\ sublime.text full = text
  /\ panel_view (on_error c exc trace)
     = update_rest_response_panel (panel_view c)
         (error_output (request (thread c)) exc trace) None None
  /\ match HTTPStatus (status r) with
     | Some phrase =>
         panel_view (on_success c r)
         = update_rest_response_panel (panel_view c)
             (success_output (request (thread c)) r phrase) None None
     | None => panel_view (on_success c r) = panel_view c
     end
  /\ update_throbber (request (thread c)) view position
     = update_rest_response_panel view (throbber position)
         (Some (throbber_start (request (thread c))))
         (Some (throbber_end (request (thread c))))
  /\ (panel_view (turn t c) = panel_view c
      \/ exists text1 start1 end1,
           panel_view (turn t c)
           = update_rest_response_panel (panel_view c) text1 start1 end1)
  /\ response_view (panel_view reached)
  /\ exists writes,
       sublime.calls (panel_view reached)
       = (sublime.calls panel ++ calls_of_writes writes)%list.
Proof.
  intros view' full reached.
  split; [apply calls_update|].
  split; [repeat split|].
  do 2 (split; [reflexivity|]).
  split; [apply calls_update|].
  split; [apply text_update_full|].
  split; [reflexivity|].
  split; [unfold on_success; destruct (HTTPStatus (status r)); reflexivity|].
  split; [reflexivity|].
  split; [apply panel_turn|].
  apply panel_written.
Qed.

(** C9: the first frame [send_request] writes is the request line, a blank
    line and the label with a blank field of width 6 in brackets; that field
    is the span from [throbber_start] to [throbber_end].  In every state of a
    cycle in which a tick of the poller is due and the thread is alive, the
    tick replaces exactly that span by the indicator of the current
    position: a string of length 6 with the mark at the position and blanks
    elsewhere.  The text before and after the span, and so the size of the
    panel, are as before; the next tick is queued. *)
Theorem throbber_frame_effect
    (req : Request) (panel : sublime.View) (now : Z) (schedule : list Turn)
    (position step delay : Z) (rest : list (Callback * Z)) :
  let c0 := send_request req panel now in
  let c := exec schedule c0 in
  let c' := turn UiTurn c in
  let span := {| sublime.a := throbber_start req;
                 sublime.b := throbber_end req |} in
  timeouts c = (Poll position step, delay) :: rest ->
  is_alive (thread c) = true ->
  sublime.text (panel_view c0)
  = method req ++ " " ++ url req ++ LF ++ LF
    ++ "Waiting for response [" ++ str_mul " " THROBBER_WIDTH ++ "]"
  /\ throbber_end req - throbber_start req = THROBBER_WIDTH
  /\ indicator req (sublime.text (panel_view c0))
     = str_mul " " THROBBER_WIDTH
  /\ 0 <= position <= THROBBER_WIDTH - 1
  /\ sublime.calls (panel_view c')
     = (sublime.calls (panel_view c)
        ++ write_calls span (throbber position))%list
  /\ len (throbber position) = THROBBER_WIDTH
  /\ (forall i, (i < 6)%nat ->
        String.get i (throbber position)
        = Some (if Z.of_nat i =? position then "="%char else " "%char))
  /\ indicator req (sublime.text (panel_view c')) = throbber position
  /\ before_indicator req (sublime.text (panel_view c'))
     = before_indicator req (sublime.text (panel_view c))
  /\ after_indicator req (sublime.text (panel_view c'))
     = after_indicator req (sublime.text (panel_view c))
  /\ sublime.size (panel_view c') = sublime.size (panel_view c)
  /\ timeouts c'
     = [(Poll (fst (advance position step)) (snd (advance position step)),
         THROBBER_REFRESH_RATE)].
Proof.
  intros c0 c c' span Hq Halive.
  assert (Hfirst : sublime.text (panel_view c0)
                   = frame req (str_mul " " THROBBER_WIDTH)).
  { unfold c0, send_request, set_timeout, run_command. cbn [panel_view].
    rewrite text_update_full. apply waiting_frame_frame. }
  split.
  { rewrite Hfirst. unfold frame, frame_prefix.
    rewrite !append_assoc. reflexivity. }
  split; [apply throbber_span_width|].
  split; [rewrite Hfirst; apply indicator_frame; reflexivity|].
  pose proof (reachable_inv req panel now schedule) as Hinv.
  fold c0 c in Hinv. subst c'. revert Hinv Hq Halive.
  destruct c as [th v q con clk]. unfold cycle_inv.
  cbn [thread panel_view timeouts console clock].
  intros (Ht & Hu & _) Hq Halive.
  assert (Hreq : request th = req) by (destruct Ht; reflexivity).
  destruct Hu as [ v k old delay' Htext Hold | | | | | ];
    try discriminate Hq.
  injection Hq as Hp Hs Hd Hrest. subst position step delay' rest.
  assert (Hpos : 0 <= fst (poller k) <= THROBBER_WIDTH - 1)
    by (rewrite poller_closed; apply bounce_bounds).
  assert (Hlen : String.length (throbber (fst (poller k))) = 6%nat)
    by (apply length_throbber, Hpos).
  assert (Hnew : sublime.text (update_throbber req v (fst (poller k)))
                 = frame req (throbber (fst (poller k))))
    by (apply (text_update_throbber req v old); assumption).
  cbn [turn timeouts run_callback]. unfold poll, set_timeout.
  cbn [thread panel_view timeouts app]. rewrite Halive, Hreq.
  cbn [negb panel_view timeouts].
  split; [exact Hpos|].
  split.
  { unfold update_throbber. rewrite calls_update.
    rewrite !py_or_Some; [reflexivity| |].
    - rewrite (throbber_end_prefix req old Hold). unfold len. lia.
    - rewrite throbber_start_prefix.
      pose proof (frame_prefix_nonempty req) as Hne. unfold len.
      destruct (frame_prefix req); [contradiction|cbn; lia]. }
  split; [unfold len; rewrite Hlen; reflexivity|].
  split; [intros i Hi; apply throbber_cells; assumption|].
  rewrite Hnew, Htext.
  split; [apply indicator_frame, Hlen|].
  split; [now rewrite !before_indicator_frame|].
  split; [now rewrite !after_indicator_frame|].
  split; [|reflexivity].
  unfold sublime.size. rewrite Hnew, Htext, !len_frame.
  unfold len. rewrite Hlen, Hold. reflexivity.
Qed.

(* ================================================================== *)
(** ** The renderer *)

Lemma raise_console (c : Cycle) (f : Fault) : console (raise c f) <> console c.
Proof.
  cbn. intros H. apply (f_equal (@List.length Fault)) in H.
  rewrite length_app in H. cbn in H. lia.
Qed.


(** C4: for a request whose adapter call raises [exc], with a non-empty
    text from [traceback.format_exc()], the panel shows, whenever the cycle
    is over, exactly three blocks joined by blank lines: the line
    "REST Client: Error on request to", method and url; [repr] of the
    exception; and the diagnostic the worker recorded with the error, which
    is that non-empty text.  The text of the panel begins with the first
    line, and the cycle is over two turns of the UI thread after the worker
    has returned. *)
Theorem error_rendering
    (req : Request) (panel : sublime.View) (now : Z) (schedule : list Turn)
    (exc : PyException) :
  let c := exec schedule (send_request req panel now) in
  let error_line :=
    "REST Client: Error on request to " ++ method req ++ " " ++ url req in
  client_request req = Raises exc ->
  format_exc exc <> EmptyString ->
  (timeouts c = [] ->
   exists diagnostic,
     error (thread c) = Some (exc, diagnostic)
     /\ diagnostic <> EmptyString
     /\ sublime.text (panel_view c)
        = three_blocks error_line (repr exc) diagnostic
     /\ prefix error_line (sublime.text (panel_view c)) = true
     /\ console c = [])
  /\ ((7 <= worker_turns schedule)%nat ->
      timeouts (exec [UiTurn; UiTurn] c) = []).
Proof.
  intros c error_line Hres Hdiag.
  pose proof (reachable_inv req panel now schedule) as Hinv. fold c in Hinv.
  split.
  - intros Hq. exists (format_exc exc).
    pose proof (cycle_inv_over req c Hinv Hq) as H.
    rewrite Hres in H. destruct H as [Htext Hcon].
    destruct Hinv as (Ht & _ & Hd).
    assert (Halive : is_alive (thread c) = false)
      by (apply Hd; rewrite Hq; reflexivity).
    destruct (thread_inv_not_alive req _ _ Ht Halive) as (_ & _ & _ & He).
    rewrite Hres in He.
    split; [exact He|]. split; [exact Hdiag|].
    rewrite Htext, error_output_blocks. fold error_line.
    split; [reflexivity|]. split; [|exact Hcon].
    unfold three_blocks. apply prefix_append.
  - intros Hlen.
    change (exec [UiTurn; UiTurn] c) with (turn UiTurn (turn UiTurn c)).
    apply (turn_ui_done req); [exact Hinv|].
    apply is_alive_reached. rewrite Hres. exact Hlen.
Qed.

(** C10: when the adapter returns a response whose status code is none of
    the codes of [HTTPStatus], [on_success] raises [ValueError] at the
    lookup of the phrase and writes nothing.  In every state of the cycle
    the panel still shows a waiting frame, so no final result is ever
    rendered, although the worker has recorded the Success outcome: the
    cycle ends with the [ValueError] on the console.  In general
    [on_success] writes the panel exactly when [HTTPStatus] knows the
    code. *)
Theorem nonstandard_status_not_rendered
    (req : Request) (panel : sublime.View) (now : Z) (schedule : list Turn)
    (r : Response) :
  let c := exec schedule (send_request req panel now) in
  let c' := exec [UiTurn; UiTurn] c in
  client_request req = Returns r ->
  HTTPStatus (status r) = None ->
  on_success c r = raise c (ValueError (status r))
  /\ panel_view (on_success c r) = panel_view c
  /\ (exists span, sublime.text (panel_view c) = frame req span)
  /\ ((6 <= worker_turns schedule)%nat ->
      success (thread c') = Some true
      /\ response (thread c') = Some r
      /\ timeouts c' = []
      /\ console c' = [ValueError (status r)]
      /\ exists span, sublime.text (panel_view c') = frame req span)
  /\ (forall (c1 : Cycle) (r1 : Response),
        HTTPStatus (status r1) <> None
        <-> console (on_success c1 r1) = console c1).
Proof.
  intros c c' Hres Hnone.
  pose proof (reachable_inv req panel now schedule) as Hinv. fold c in Hinv.
  assert (Hframe : forall c1, cycle_inv req c1 ->
                     exists span, sublime.text (panel_view c1)
                                  = frame req span).
  { intros c1 Hinv1.
    destruct (cycle_inv_text req c1 Hinv1)
      as [(span & Htext & _)|[(r1 & phrase & Hr1 & Hp & _)|(exc & He & _)]].
    - exists span. exact Htext.
    - congruence.
    - congruence. }
  split; [unfold on_success; now rewrite Hnone|].
  split; [unfold on_success; now rewrite Hnone|].
  split; [apply Hframe, Hinv|].
  split.
  - intros Hlen.
    assert (Hinv' : cycle_inv req c') by (apply cycle_inv_exec, Hinv).
    assert (Hq : timeouts c' = []).
    { unfold c'.
      change (exec [UiTurn; UiTurn] c) with (turn UiTurn (turn UiTurn c)).
      apply (turn_ui_done req); [exact Hinv|].
      apply is_alive_reached. rewrite Hres. exact Hlen. }
    pose proof (cycle_inv_over req c' Hinv' Hq) as H.
    rewrite Hres, Hnone in H. destruct H as [_ Hcon].
    destruct Hinv' as (Ht & _ & Hd).
    assert (Halive : is_alive (thread c') = false)
      by (apply Hd; rewrite Hq; reflexivity).
    destruct (thread_inv_not_alive req _ _ Ht Halive) as (_ & Hs & Hr & _).
    rewrite Hres in Hs, Hr.
    repeat (split; [assumption|]).
    apply Hframe. apply cycle_inv_exec, Hinv.
  - intros c1 r1. unfold on_success.
    destruct (HTTPStatus (status r1)) as [phrase|]; split; intros H.
    + reflexivity.
    + discriminate.
    + contradiction.
    + exfalso. exact (raise_console c1 _ H).
Qed.

(* ================================================================== *)
(** ** Further properties of the panel command and the throbber *)

Lemma str_take_drop (n : nat) (s : string) : str_take n s ++ str_drop n s = s.
Proof.
  revert s. induction n as [|n IH]; intros [|ch s]; cbn; try reflexivity.
  now rewrite IH.
Qed.

Lemma length_take_drop (n : nat) (s : string) :
  (String.length (str_take n s) + String.length (str_drop n s))%nat
  = String.length s.
Proof. now rewrite <- length_append, str_take_drop. Qed.

Lemma str_take_length (n : nat) (s : string) :
  (n <= String.length s)%nat -> String.length (str_take n s) = n.
Proof.
  revert s. induction n as [|n IH]; intros [|ch s] Hle; cbn in *;
    try reflexivity; try lia.
  rewrite IH; [reflexivity|lia].
Qed.

(** X1.  A bound of 0 is falsy for [region_start or 0] and
    [region_end or self.view.size()]: a write that gives the empty region at
    0, as one would to insert in front, replaces the whole text as if no
    bound were given.  At any other position inside the text the empty
    region inserts: the text before and after it stays and the size grows
    by the length of the text written. *)
Theorem write_at_zero_replaces_all
    (view : sublime.View) (text : string) (at_ : Z) :
  let whole := update_rest_response_panel view text (Some 0) (Some 0) in
  let inserted :=
    update_rest_response_panel view text (Some at_) (Some at_) in
  whole = update_rest_response_panel view text None None
  /\ sublime.text whole = text
  /\ (0 < at_ <= sublime.size view ->
      sublime.text inserted
      = str_take (Z.to_nat at_) (sublime.text view) ++ text
        ++ str_drop (Z.to_nat at_) (sublime.text view)
      /\ sublime.size inserted = sublime.size view + len text).
Proof.
  intros whole inserted.
  split; [reflexivity|].
  split; [apply text_update_full|].
  intros Hat. unfold sublime.size, len in Hat.
  assert (Htext : sublime.text inserted
                  = str_take (Z.to_nat at_) (sublime.text view) ++ text
                    ++ str_drop (Z.to_nat at_) (sublime.text view)).
  { unfold inserted, update_rest_response_panel.
    rewrite !py_or_Some by lia.
    unfold sublime.replace, sublime.begin_, sublime.end_; cbn.
    rewrite Z.min_id, Z.max_id. reflexivity. }
  split; [exact Htext|].
  unfold sublime.size, len. rewrite Htext, !length_append.
  pose proof (length_take_drop (Z.to_nat at_) (sublime.text view)).
  lia.
Qed.

(** X2.  The indicator the poller draws has the width of the throbber exactly
    when the position lies within the field; outside it the text is longer,
    since a negative count of blanks gives none. *)
Theorem throbber_width_iff (position : Z) :
  len (throbber position)
  = Z.max position 0 + 1 + Z.max (THROBBER_WIDTH - 1 - position) 0
  /\ (len (throbber position) = THROBBER_WIDTH
      <-> 0 <= position <= THROBBER_WIDTH - 1).
Proof.
  assert (Hlen : len (throbber position)
                 = Z.max position 0 + 1
                   + Z.max (THROBBER_WIDTH - 1 - position) 0).
  { unfold len, throbber, str_mul.
    rewrite !length_append, !length_str_repeat.
    change (String.length "=") with 1%nat. lia. }
  split; [exact Hlen|].
  rewrite Hlen. unfold THROBBER_WIDTH. lia.
Qed.

(* ================================================================== *)
(** ** Further properties of the worker *)

(** The side of the outcome the adapter result does not call for is never
    written. *)
Lemma thread_inv_other_side (req : Request) (now : Z) (t : HttpRequestThread) :
  thread_inv req now t ->
  match client_request req with
  | Returns _ => error t = None
  | Raises _ => response t = None
  end.
Proof.
  intros H.
  destruct H as [ | s Hs | s t1 Ht | s t1 t2 r Hr Ht Hn
                | s t1 t2 exc Hr Ht Hn | s t1 t2 exc Hr Ht Hn
                | s t1 t2 res Hr Ht Hn | s t1 t2 e res Hr Ht Hn
                | s t1 t2 e res Hr Ht Hn ];
    cbn [response error];
    destruct (client_request req) as [r0|exc0];
    try reflexivity; try discriminate Hr; subst res; reflexivity.
Qed.


(** X3.  In a cycle the accessor of the other side never returns a value: after
    an adapter call that returned, [get_error] raises in every state, before
    and after the thread has returned, and its message still says before
    completion; likewise [get_response] after a call that raised.  Once the
    thread has returned exactly one of the two accessors returns a value. *)
Theorem other_accessor_never_returns
    (req : Request) (panel : sublime.View) (now : Z) (schedule : list Turn) :
  let t := thread (exec schedule (send_request req panel now)) in
  let no_response : Access Response :=
    RestException "Attempted to retrieve response before completion" in
  let no_error : Access (PyException * string) :=
    RestException "Attempted to retrieve error before completion" in
  match client_request req with
  | Returns r =>
      get_error t = no_error
      /\ (is_alive t = false -> get_response t = Value r)
  | Raises exc =>
      get_response t = no_response
      /\ (is_alive t = false -> get_error t = Value (exc, format_exc exc))
  end.
Proof.
  intros t no_response no_error.
  pose proof (reachable_inv req panel now schedule) as (Ht & _).
  fold t in Ht.
  pose proof (thread_inv_other_side req _ t Ht) as Hother.
  assert (Hdone : is_alive t = false ->
                  success t = Some (returned (client_request req))
                  /\ response t = response_of (client_request req)
                  /\ error t = error_of (client_request req)).
  { intros Halive. apply (thread_inv_not_alive req _ t Ht Halive). }
  unfold get_response, get_error.
  destruct (client_request req) as [r|exc]; split.
  - rewrite Hother. destruct (success t); reflexivity.
  - intros Halive. destruct (Hdone Halive) as (Hs & Hr & _).
    now rewrite Hs, Hr.
  - rewrite Hother. destruct (success t); reflexivity.
  - intros Halive. destruct (Hdone Halive) as (Hs & _ & He).
    now rewrite Hs, He.
Qed.


(* ================================================================== *)
(** ** Further properties of the poller and of a cycle *)

(** A callback leaves the queue as it is or adds one callback, due at once
    or after the refresh interval. *)
Lemma timeouts_run_callback (c : Cycle) (callback : Callback) :
  timeouts (run_callback c callback) = timeouts c
  \/ exists next delay,
       (delay = 0 \/ delay = THROBBER_REFRESH_RATE)
       /\ timeouts (run_callback c callback)
          = (timeouts c ++ [(next, delay)])%list.
Proof.
  destruct callback as [position step|r|exc trace]; cbn [run_callback].
  - unfold poll. destruct (is_alive (thread c)); cbn [negb].
    + right. cbn. eauto 10.
    + destruct (success (thread c)) as [[|]|];
        try (destruct (response (thread c)); cbn; eauto 10);
        destruct (error (thread c)) as [[? ?]|]; cbn; eauto 10.
  - left. unfold on_success. destruct (HTTPStatus (status r)); reflexivity.
  - left. reflexivity.
Qed.

Lemma delays_turn (t : Turn) (c : Cycle) :
  Forall (fun job => snd job = 0 \/ snd job = THROBBER_REFRESH_RATE)
         (timeouts c) ->
  Forall (fun job => snd job = 0 \/ snd job = THROBBER_REFRESH_RATE)
         (timeouts (turn t c)).
Proof.
  intros Hall. destruct t as [ | |ticks]; cbn [turn timeouts]; auto.
  destruct (timeouts c) as [|[callback delay] rest] eqn:Hq; [now rewrite Hq|].
  inversion Hall as [|? ? _ Hrest]; subst.
  match goal with
  | |- context [run_callback ?c0 callback] =>
      destruct (timeouts_run_callback c0 callback)
        as [Hsame|(next & d & Hd & Hadd)]
  end.
  - rewrite Hsame. exact Hrest.
  - rewrite Hadd. apply Forall_app. split; [exact Hrest|].
    constructor; [exact Hd|constructor].
Qed.

Lemma delays_exec (schedule : list Turn) (c : Cycle) :
  Forall (fun job => snd job = 0 \/ snd job = THROBBER_REFRESH_RATE)
         (timeouts c) ->
  Forall (fun job => snd job = 0 \/ snd job = THROBBER_REFRESH_RATE)
         (timeouts (exec schedule c)).
Proof.
  revert c. induction schedule as [|t schedule IH]; intros c Hall;
    [exact Hall|].
  change (exec (t :: schedule) c) with (exec schedule (turn t c)).
  apply IH, delays_turn, Hall.
Qed.

(** X5.  The queue of a cycle never holds more than one callback, and each is
    due at once or after the refresh interval.  As long as the thread is alive
    the queue holds a tick of the poller and nothing has been reported on the
    console: the poller does not stop before the worker has, however long
    the adapter takes.  The console never holds more than one report. *)
Theorem one_callback_pending
    (req : Request) (panel : sublime.View) (now : Z) (schedule : list Turn) :
  let c := exec schedule (send_request req panel now) in
  (List.length (timeouts c) <= 1)%nat
  /\ Forall (fun job => snd job = 0 \/ snd job = THROBBER_REFRESH_RATE)
            (timeouts c)
  /\ (is_alive (thread c) = true ->
      (exists position step delay,
         timeouts c = [(Poll position step, delay)])
      /\ console c = [])
  /\ (List.length (console c) <= 1)%nat.
Proof.
  intros c.
  pose proof (reachable_inv req panel now schedule) as Hinv. fold c in Hinv.
  assert (Hdelays : Forall (fun job => snd job = 0
                                       \/ snd job = THROBBER_REFRESH_RATE)
                           (timeouts c)).
  { apply delays_exec. repeat constructor. }
  destruct Hinv as (_ & Hu & Hd).
  split; [destruct Hu; cbn; lia|].
  split; [exact Hdelays|].
  split; [|destruct Hu; cbn; lia].
  intros Halive.
  destruct Hu; cbn [polling] in Hd; cbn;
    try (rewrite Hd in Halive by reflexivity; discriminate Halive).
  split; [eauto|reflexivity].
Qed.

(** X6.  A cycle that is over stays as it is: once the queue is empty no turn
    changes the thread, the panel, the queue or the console; only the clock
    moves on. *)
Theorem cycle_over_is_final
    (req : Request) (panel : sublime.View) (now : Z)
    (schedule later : list Turn) :
  let c := exec schedule (send_request req panel now) in
  let c' := exec later c in
  timeouts c = [] ->
  thread c' = thread c
  /\ panel_view c' = panel_view c
  /\ timeouts c' = []
  /\ console c' = console c
  /\ clock c <= clock c'.
Proof.
  intros c c' Hq.
  pose proof (reachable_inv req panel now schedule) as (_ & _ & Hd).
  fold c in Hd.
  assert (Halive : is_alive (thread c) = false)
    by (apply Hd; rewrite Hq; reflexivity).
  unfold c'. clear Hd c'. revert Halive Hq. generalize c. clear c.
  induction later as [|t later IH]; intros c Halive Hq.
  - cbn. repeat match goal with |- _ /\ _ => split end;
      try assumption; try reflexivity; lia.
  - change (exec (t :: later) c) with (exec later (turn t c)).
    assert (Hstep : thread (turn t c) = thread c
                    /\ panel_view (turn t c) = panel_view c
                    /\ timeouts (turn t c) = []
                    /\ console (turn t c) = console c
                    /\ clock c <= clock (turn t c)).
    { destruct t as [ | |ticks]; cbn [turn].
      - cbn. rewrite (is_alive_run_step _ _ Halive).
        repeat match goal with |- _ /\ _ => split end;
          try assumption; try reflexivity; lia.
      - rewrite Hq.
        repeat match goal with |- _ /\ _ => split end;
          try assumption; try reflexivity; lia.
      - cbn. repeat match goal with |- _ /\ _ => split end;
          try assumption; try reflexivity; lia. }
    destruct Hstep as (Ht & Hp & Hq' & Hc & Hk).
    destruct (IH (turn t c)) as (Ht' & Hp' & Hq'' & Hc' & Hk').
    + rewrite Ht. exact Halive.
    + exact Hq'.
    + repeat match goal with |- _ /\ _ => split end;
        try congruence; lia.
Qed.

Lemma clock_run_callback (c : Cycle) (callback : Callback) :
  clock (run_callback c callback) = clock c.
Proof.
  destruct callback as [position step|r|exc trace]; cbn.
  - unfold poll.
    destruct (is_alive (thread c)); cbn; [reflexivity|].
    destruct (success (thread c)) as [[|]|];
      try (destruct (response (thread c)); reflexivity);
      destruct (error (thread c)) as [[? ?]|]; reflexivity.
  - unfold on_success. destruct (HTTPStatus (status r)); reflexivity.
  - reflexivity.
Qed.

(** X7.  The worker never sees the poller, and it alone does not touch the UI
    side: the thread and the clock after a schedule are those after the
    schedule without the turns of the UI thread, whatever the state it runs
    from; and a schedule without such turns leaves the panel, the queue and
    the console as they were. *)
Theorem worker_independent_of_ui (schedule : list Turn) (c : Cycle) :
  let quiet := without_ui schedule in
  thread (exec schedule c) = thread (exec quiet c)
  /\ clock (exec schedule c) = clock (exec quiet c)
  /\ panel_view (exec quiet c) = panel_view c
  /\ timeouts (exec quiet c) = timeouts c
  /\ console (exec quiet c) = console c.
Proof.
  cbv zeta.
  assert (Hgen : forall c1 c2,
            thread c1 = thread c2 -> clock c1 = clock c2 ->
            thread (exec schedule c1) = thread (exec (without_ui schedule) c2)
            /\ clock (exec schedule c1)
               = clock (exec (without_ui schedule) c2)).
  { induction schedule as [|t schedule IH]; intros c1 c2 Ht Hk;
      [split; assumption|].
    change (exec (t :: schedule) c1) with (exec schedule (turn t c1)).
    destruct t as [ | |ticks]; cbn [without_ui filter].
    - change (exec (WorkerTurn :: ?l) c2) with (exec l (turn WorkerTurn c2)).
      apply IH; cbn; congruence.
    - apply IH.
      + rewrite thread_turn_ui. exact Ht.
      + cbn. destruct (timeouts c1) as [|[callback delay] rest];
          [exact Hk|].
        rewrite clock_run_callback. exact Hk.
    - change (exec (TimePasses ticks :: ?l) c2)
        with (exec l (turn (TimePasses ticks) c2)).
      apply IH; cbn; congruence. }
  destruct (Hgen c c eq_refl eq_refl) as [Ht Hk].
  split; [exact Ht|]. split; [exact Hk|].
  clear Hgen Ht Hk. revert c.
  induction schedule as [|t schedule IH]; intros c;
    [repeat split|].
  destruct t as [ | |ticks]; cbn [without_ui filter];
    fold (without_ui schedule).
  - change (exec (WorkerTurn :: ?l) c) with (exec l (turn WorkerTurn c)).
    destruct (IH (turn WorkerTurn c)) as (Hp & Hq & Hc).
    rewrite Hp, Hq, Hc. repeat split.
  - apply IH.
  - change (exec (TimePasses ticks :: ?l) c)
      with (exec l (turn (TimePasses ticks) c)).
    destruct (IH (turn (TimePasses ticks) c)) as (Hp & Hq & Hc).
    rewrite Hp, Hq, Hc. repeat split.
Qed.

Lemma frames_succ (k : nat) :
  frames (S k) = (frames k ++ [throbber (fst (poller k))])%list.
Proof. unfold frames. now rewrite seq_S, map_app. Qed.

Lemma writes_in_order_send_request
    (req : Request) (panel : sublime.View) (now : Z) :
  writes_in_order req (rendered panel) (send_request req panel now).
Proof.
  exists 0%nat. unfold send_request, set_timeout, run_command.
  cbn [timeouts panel_view app]. split; [reflexivity|].
  apply rendered_update.
Qed.

Lemma writes_in_order_turn
    (req : Request) (before : list string) (t : Turn) (c : Cycle) :
  writes_in_order req before c ->
  writes_in_order req before (turn t c).
Proof.
  intros (k & Hk).
  destruct c as [th v q con clk]. cbn [thread timeouts panel_view] in *.
  destruct t as [ | |ticks]; [exists k; exact Hk| |exists k; exact Hk].
  cbn [turn timeouts].
  destruct q as [|[callback delay] [|second rest]].
  - exists k. exact Hk.
  - destruct callback as [position step|r|exc trace]; cbn [run_callback].
    + destruct Hk as [Hpoll Hr]. unfold poll. cbn [thread].
      destruct (is_alive th); cbn [negb].
      * exists (S k). unfold set_timeout. cbn [timeouts panel_view app thread].
        split.
        -- cbn [poller]. rewrite Hpoll. cbn [fst snd].
           destruct (advance position step); reflexivity.
        -- unfold update_throbber. rewrite rendered_update, Hr, frames_succ.
           rewrite Hpoll. cbn [fst].
           rewrite <- app_assoc. cbn [app]. rewrite app_comm_cons.
           reflexivity.
      * exists k.
        destruct (success th) as [[|]|];
          try (destruct (response th); cbn;
               [exact Hr|exists []; rewrite app_nil_r; auto]);
          destruct (error th) as [[? ?]|]; cbn;
          try exact Hr; exists []; rewrite app_nil_r; auto.
    + exists k. unfold on_success. cbn [thread].
      destruct (HTTPStatus (status r));
        cbn [run_command raise timeouts panel_view thread].
      * eexists. split; [|right; reflexivity].
        rewrite rendered_update, text_update_full, Hk.
        rewrite <- app_assoc. reflexivity.
      * exists []. rewrite app_nil_r. auto.
    + exists k. unfold on_error.
      cbn [run_command timeouts panel_view thread].
      eexists. split; [|right; reflexivity].
      rewrite rendered_update, text_update_full, Hk.
      rewrite <- app_assoc. reflexivity.
  - destruct callback; destruct Hk.
Qed.

Lemma writes_in_order_exec
    (req : Request) (before : list string) (schedule : list Turn)
    (c : Cycle) :
  writes_in_order req before c ->
  writes_in_order req before (exec schedule c).
Proof.
  revert c. induction schedule as [|t schedule IH]; intros c H; [exact H|].
  change (exec (t :: schedule) c) with (exec schedule (turn t c)).
  apply IH, writes_in_order_turn, H.
Qed.

(** X8.  The texts a cycle writes to the panel come in one order: the first
    frame, then the indicators of the positions of the walk from its start,
    none left out, and then at most one final text.  Nothing is written
    after the final text, which is the text the panel shows, and it is
    written only when no callback is left; a tick that is queued continues
    the walk where the last indicator left it. *)
Theorem writes_are_ordered
    (req : Request) (panel : sublime.View) (now : Z) (schedule : list Turn) :
  let c := exec schedule (send_request req panel now) in
  exists k final,
    rendered (panel_view c)
    = (rendered panel ++ waiting_frame req :: frames k ++ final)%list
    /\ (final = []
        \/ (final = [sublime.text (panel_view c)] /\ timeouts c = []))
    /\ (forall position step delay,
          In (Poll position step, delay) (timeouts c) ->
          poller k = (position, step) /\ final = []).
Proof.
  intros c.
  assert (H : writes_in_order req (rendered panel) c).
  { apply writes_in_order_exec, writes_in_order_send_request. }
  destruct H as (k & Hk). exists k.
  destruct (timeouts c) as [|[callback delay] [|second rest]].
  - destruct Hk as (final & Hr & Hfinal). exists final.
    split; [exact Hr|]. split; [|intros ? ? ? []].
    destruct Hfinal; auto.
  - exists []. rewrite app_nil_r.
    destruct callback as [position step|r|exc trace].
    + destruct Hk as [Hpoll Hr].
      split; [exact Hr|]. split; [auto|].
      intros p s d [Heq|[]]. inversion Heq; subst. auto.
    + split; [exact Hk|]. split; [auto|].
      intros p s d [Heq|[]]. discriminate Heq.
    + split; [exact Hk|]. split; [auto|].
      intros p s d [Heq|[]]. discriminate Heq.
  - destruct callback; destruct Hk.
Qed.

(* ================================================================== *)
(** ** The command object *)

Lemma length_list_update {A : Type} (i : nat) (f : A -> A) (l : list A) :
  List.length (list_update i f l) = List.length l.
Proof.
  revert i. induction l as [|x l IH]; intros [|i]; cbn; auto.
Qed.

Lemma Forall_list_update {A : Type} (P : A -> Prop) (i : nat) (f : A -> A)
    (l : list A) :
  (forall x, P x -> P (f x)) -> Forall P l -> Forall P (list_update i f l).
Proof.
  intros Hf. revert i.
  induction l as [|x l IH]; intros [|i] Hall; cbn; auto;
    inversion Hall; subst; constructor; auto.
Qed.

Lemma request_run_step (now : Z) (t : HttpRequestThread) :
  request (run_step now t) = request t.
Proof.
  unfold run_step.
  destruct (line t); try reflexivity.
  destruct (client_request (request t)); reflexivity.
Qed.

Lemma thread_inv_own_step (now : Z) (t : HttpRequestThread) :
  thread_inv (request t) now t ->
  thread_inv (request (run_step now t)) now (run_step now t).
Proof.
  intros H. rewrite request_run_step. apply thread_inv_run_step, H.
Qed.

Lemma command_inv_init (now : Z) : command_inv (RestRequestCommand_init now).
Proof. repeat split; cbn; auto. Qed.

(** With the attributes assigned, a write goes to the panel and reports
    nothing. *)
Lemma write_attributes_set
    (cmd : RestRequestCommand) (text : string)
    (region_start region_end : option Z) :
  attributes_set cmd ->
  exists v,
    self_panel_view cmd = Some v
    /\ RestRequestCommand_write cmd text region_start region_end
       = with_panel_view cmd
           (update_rest_response_panel v text region_start region_end).
Proof.
  intros [_ Hv]. unfold RestRequestCommand_write.
  destruct (self_panel_view cmd) as [v|]; [eauto|contradiction].
Qed.

Lemma Forall_list_remove {A : Type} (P : A -> Prop) (i : nat) (l : list A) :
  Forall P l -> Forall P (list_remove i l).
Proof.
  unfold list_remove. revert i.
  induction l as [|x l IH]; intros i Hall.
  - destruct i; constructor.
  - inversion Hall; subst. destruct i as [|i]; cbn; [assumption|].
    constructor; [assumption|]. apply IH. assumption.
Qed.

Lemma length_list_remove {A : Type} (i : nat) (l : list A) (x : A) :
  nth_error l i = Some x ->
  S (List.length (list_remove i l)) = List.length l.
Proof.
  unfold list_remove. revert i.
  induction l as [|y l IH]; intros [|i] H; try discriminate H.
  - reflexivity.
  - cbn. f_equal. apply IH. exact H.
Qed.

Lemma map_request_list_update
    (i : nat) (now : Z) (ts : list HttpRequestThread) :
  map request (list_update i (run_step now) ts) = map request ts.
Proof.
  revert i. induction ts as [|t ts IH]; intros [|i]; cbn; try reflexivity.
  - rewrite request_run_step. reflexivity.
  - rewrite IH. reflexivity.
Qed.

Lemma job_origin_more (asked more : list Request) (queued : Job * Z) :
  job_origin asked queued -> job_origin (asked ++ more) queued.
Proof.
  destruct queued as [[worker lo hi position step_|r|exc trace] delay];
    unfold job_origin; cbn [fst].
  - intros (req & Hn & Hb). exists req. split; [|exact Hb].
    rewrite nth_error_app1; [exact Hn|].
    apply nth_error_Some. rewrite Hn. discriminate.
  - intros (req & Hin & Hres). exists req. split; [|exact Hres].
    apply in_or_app. left. exact Hin.
  - intros (req & Hin & Hres). exists req. split; [|exact Hres].
    apply in_or_app. left. exact Hin.
Qed.

Lemma command_inv_job (cmd : RestRequestCommand) (job : Job) :
  command_inv cmd ->
  attributes_set cmd ->
  job_origin (map request (threads cmd)) (job, 0) ->
  command_inv (run_job cmd job).
Proof.
  intros (Hthreads & Hjobs & Hattr & Hrep) Hset Hbound.
  destruct Hset as [Hreq Hview].
  destruct (self_request cmd) as [req|] eqn:Ereq; [|contradiction].
  destruct (self_panel_view cmd) as [v|] eqn:Eview; [|contradiction].
  assert (Hkeep : forall cmd',
            self_request cmd' = self_request cmd ->
            self_panel_view cmd' <> None ->
            attributes_set cmd' \/ callbacks cmd' = []).
  { intros cmd' H1 H2. left. split; [rewrite H1, Ereq; discriminate|exact H2]. }
  destruct job as [worker lo hi position step_|r|exc trace];
    cbn [run_job].
  - pose proof Hbound as (asked & Hn & Hlo & Hhi).
    rewrite nth_error_map in Hn.
    unfold RestRequestCommand_poll.
    destruct (nth_error (threads cmd) worker) as [t|] eqn:Et;
      [|discriminate Hn].
    cbn in Hn. injection Hn as Hasked.
    assert (Hin : In t (threads cmd)) by (eapply nth_error_In, Et).
    assert (Ht : thread_inv (request t) (wall_clock cmd) t).
    { rewrite Forall_forall in Hthreads. apply Hthreads, Hin. }
    destruct (is_alive t) eqn:Halive; cbn [negb].
    + unfold RestRequestCommand_write. rewrite Eview.
      split; [exact Hthreads|]. split; [|split; [|exact Hrep]].
      * cbn. apply Forall_app. split; [exact Hjobs|].
        constructor; [exact Hbound|constructor].
      * apply Hkeep; [reflexivity|discriminate].
    + destruct (thread_inv_not_alive _ _ _ Ht Halive) as (_ & Hs & Hr & He).
      rewrite Hs, Hr, He.
      destruct (client_request (request t)) as [r|exc] eqn:Hres;
        cbn [returned response_of error_of];
        (split; [exact Hthreads|]; split; [|split; [|exact Hrep]];
         [ cbn; apply Forall_app; split; [exact Hjobs|];
           constructor; [|constructor];
           exists (request t); split; [apply in_map, Hin|auto]
         | apply Hkeep; [reflexivity|cbn; rewrite Eview; discriminate] ]).
  - unfold RestRequestCommand_on_success.
    destruct (HTTPStatus (status r)) eqn:Hphrase.
    + rewrite Ereq. unfold RestRequestCommand_write. rewrite Eview.
      split; [exact Hthreads|]. split; [exact Hjobs|].
      split; [|exact Hrep].
      apply Hkeep; [reflexivity|discriminate].
    + split; [exact Hthreads|]. split; [exact Hjobs|]. split.
      * apply Hkeep; [reflexivity|cbn; rewrite Eview; discriminate].
      * cbn. apply Forall_app. split; [exact Hrep|].
        constructor; [exact Hphrase|constructor].
  - unfold RestRequestCommand_on_error.
    rewrite Ereq. unfold RestRequestCommand_write. rewrite Eview.
    split; [exact Hthreads|]. split; [exact Hjobs|].
    split; [|exact Hrep].
    apply Hkeep; [reflexivity|discriminate].
Qed.

Lemma command_inv_step (s : Step) (cmd : RestRequestCommand) :
  command_inv cmd -> command_inv (command_step s cmd).
Proof.
  intros Hinv. pose proof Hinv as (Hthreads & Hjobs & Hattr & Hrep).
  destruct s as [active panel|worker|which|ticks]; cbn [command_step].
  - unfold RestRequestCommand_run.
    destruct active as [view|]; [|exact Hinv].
    destruct (parse view) as [req|e] eqn:Hparse.
    + unfold RestRequestCommand_send_request, RestRequestCommand_write.
      cbn. repeat split; cbn.
      * apply Forall_app. split; [exact Hthreads|].
        constructor; [apply at_L37|constructor].
      * rewrite map_app. apply Forall_app. split.
        -- eapply Forall_impl; [|exact Hjobs].
           intros queued. apply job_origin_more.
        -- constructor; [|constructor].
           exists req. cbn. split; [|split; reflexivity].
           rewrite nth_error_app2; rewrite length_map; [|lia].
           rewrite Nat.sub_diag. reflexivity.
      * left. split; discriminate.
      * exact Hrep.
    + repeat split; cbn; try assumption.
      apply Forall_app. split; [exact Hrep|].
      constructor; [exists view; exact Hparse|constructor].
  - repeat split; cbn; try assumption.
    + apply Forall_list_update; [|exact Hthreads].
      intros t. apply thread_inv_own_step.
    + rewrite map_request_list_update. exact Hjobs.
  - destruct (nth_error (callbacks cmd) which) as [[job delay]|] eqn:Hq;
      [|exact Hinv].
    destruct Hattr as [Hset|Hnil];
      [|rewrite Hnil in Hq; destruct which; discriminate Hq].
    assert (Hjob : job_origin (map request (threads cmd)) (job, delay)).
    { rewrite Forall_forall in Hjobs. apply Hjobs.
      eapply nth_error_In, Hq. }
    apply command_inv_job.
    + repeat split; cbn; try assumption.
      * apply Forall_list_remove. exact Hjobs.
      * left. exact Hset.
    + exact Hset.
    + exact Hjob.
  - repeat split; cbn; try assumption.
    eapply Forall_impl; [|exact Hthreads].
    intros t Ht. apply (thread_inv_later _ (wall_clock cmd)); [lia|exact Ht].
Qed.

Lemma command_steps_snoc (l : list Step) (s : Step) (cmd : RestRequestCommand) :
  command_steps (l ++ [s]) cmd = command_step s (command_steps l cmd).
Proof. unfold command_steps. rewrite fold_left_app. reflexivity. Qed.

Lemma command_inv_steps (l : list Step) (cmd : RestRequestCommand) :
  command_inv cmd -> command_inv (command_steps l cmd).
Proof.
  revert cmd. induction l as [|s l IH]; intros cmd H; [exact H|].
  change (command_steps (s :: l) cmd)
    with (command_steps l (command_step s cmd)).
  apply IH, command_inv_step, H.
Qed.

(** A callback changes neither the threads, nor [self.request], nor the
    calls made on the window, and queues at most one callback. *)
Lemma run_job_frame (cmd : RestRequestCommand) (job : Job) :
  threads (run_job cmd job) = threads cmd
  /\ self_request (run_job cmd job) = self_request cmd
  /\ window_calls (run_job cmd job) = window_calls cmd
  /\ (List.length (callbacks (run_job cmd job))
      <= S (List.length (callbacks cmd)))%nat.
Proof.
  destruct job as [worker lo hi position step_|r|exc trace]; cbn [run_job].
  - unfold RestRequestCommand_poll, RestRequestCommand_write.
    destruct (nth_error (threads cmd) worker) as [t|];
      [|repeat split; lia].
    destruct (negb (is_alive t)).
    + destruct (success t) as [[|]|];
        [destruct (response t)|destruct (error t) as [[? ?]|]
        |destruct (error t) as [[? ?]|]];
        cbn; rewrite ?length_app; cbn; repeat split; lia.
    + destruct (self_panel_view cmd); cbn; rewrite ?length_app; cbn;
        repeat split; lia.
  - unfold RestRequestCommand_on_success, RestRequestCommand_write.
    destruct (HTTPStatus (status r)); [|cbn; repeat split; lia].
    destruct (self_request cmd) eqn:Ereq;
      [|cbn; repeat split; try assumption; lia].
    destruct (self_panel_view cmd); cbn; repeat split; try assumption; lia.
  - unfold RestRequestCommand_on_error, RestRequestCommand_write.
    destruct (self_request cmd) eqn:Ereq;
      [|cbn; repeat split; try assumption; lia].
    destruct (self_panel_view cmd); cbn; repeat split; try assumption; lia.
Qed.

(** The books of the command after the steps [l]. *)
Lemma command_ledger (now : Z) (l : list Step) :
  let cmd := command_steps l (RestRequestCommand_init now) in
  map request (threads cmd) = parsed_requests l
  /\ self_request cmd = last (map Some (parsed_requests l)) None
  /\ window_calls cmd = flat_map (fun _ => panel_shown) (parsed_requests l)
  /\ (List.length (callbacks cmd) <= List.length (parsed_requests l))%nat.
Proof.
  induction l as [|s l IH] using rev_ind; [cbn; auto|].
  cbv zeta in *. rewrite command_steps_snoc.
  set (cmd := command_steps l (RestRequestCommand_init now)) in *.
  destruct IH as (Hthreads & Hreq & Hwin & Hlen).
  unfold parsed_requests in *. rewrite flat_map_app. cbn [flat_map].
  rewrite app_nil_r.
  destruct s as [[view|] panel|worker|which|ticks]; cbn [command_step].
  - unfold RestRequestCommand_run.
    destruct (parse view) as [req|e].
    + unfold RestRequestCommand_send_request, RestRequestCommand_write.
      cbn. rewrite !map_app, flat_map_app, !length_app.
      cbn [map flat_map List.length app]. rewrite last_last.
      rewrite Hthreads, Hwin, <- app_assoc.
      repeat split. lia.
    + cbn. rewrite !app_nil_r. auto.
  - cbn. rewrite !app_nil_r. auto.
  - cbn. rewrite !app_nil_r, map_request_list_update. auto.
  - rewrite !app_nil_r.
    destruct (nth_error (callbacks cmd) which) as [[job delay]|] eqn:Hq;
      [|auto].
    destruct (run_job_frame
                (with_callbacks cmd (list_remove which (callbacks cmd))) job)
      as (H1 & H2 & H3 & H4).
    rewrite H1, H2, H3. cbn in *.
    apply length_list_remove in Hq.
    repeat split; try assumption. lia.
  - cbn. rewrite !app_nil_r. auto.
Qed.

Lemma request_turn (t : Turn) (c : Cycle) :
  request (thread (turn t c)) = request (thread c).
Proof.
  destruct t as [| |ticks]; cbn [turn thread]; [apply request_run_step| |auto].
  destruct (timeouts c) as [|[callback delay] rest]; [reflexivity|].
  destruct callback as [position step_|r|exc trace]; cbn [run_callback].
  - unfold poll. cbn [thread].
    destruct (negb (is_alive (thread c))); [|reflexivity].
    destruct (success (thread c)) as [[|]|];
      [destruct (response (thread c))|destruct (error (thread c)) as [[? ?]|]
      |destruct (error (thread c)) as [[? ?]|]]; reflexivity.
  - unfold on_success. cbn [thread].
    destruct (HTTPStatus (status r)); reflexivity.
  - reflexivity.
Qed.

Lemma mirrors_turn
    (req : Request) (t : Turn) (cmd : RestRequestCommand) (c : Cycle) :
  request (thread c) = req ->
  mirrors req cmd c ->
  mirrors req (command_step (step_of_turn t) cmd) (turn t c).
Proof.
  intros Hreq (Hr & Hv & Hts & Hq & Hrep & Hclock & Hwin).
  destruct t as [| |ticks]; cbn [step_of_turn command_step turn].
  - unfold mirrors. cbn. rewrite Hts, Hclock. cbn. auto 10.
  - rewrite Hq.
    destruct (timeouts c) as [|[callback delay] rest] eqn:Hc;
      cbn [map nth_error].
    + unfold mirrors. rewrite Hc. auto 10.
    + unfold list_remove. cbn [firstn skipn app].
      destruct callback as [position step_|r|exc trace];
        cbn [job_of_callback fst snd run_job run_callback].
      * unfold RestRequestCommand_poll, poll, RestRequestCommand_write.
        cbn [threads with_callbacks thread self_panel_view].
        rewrite Hts, Hv. cbn [nth_error].
        destruct (negb (is_alive (thread c))).
        -- destruct (success (thread c)) as [[|]|];
             [destruct (response (thread c))
             |destruct (error (thread c)) as [[? ?]|]
             |destruct (error (thread c)) as [[? ?]|]];
             unfold mirrors; cbn; rewrite ?map_app; cbn;
             rewrite ?Hrep; auto 10.
        -- unfold mirrors, update_throbber. cbn. rewrite map_app, Hreq.
           cbn. auto 10.
      * unfold RestRequestCommand_on_success, on_success,
          RestRequestCommand_write.
        destruct (HTTPStatus (status r)).
        -- cbn [self_request with_callbacks self_panel_view thread].
           rewrite Hr, Hv, Hreq. unfold mirrors. cbn. auto 10.
        -- unfold mirrors. cbn. rewrite map_app, Hrep. cbn. auto 10.
      * unfold RestRequestCommand_on_error, on_error,
          RestRequestCommand_write.
        cbn [self_request with_callbacks self_panel_view thread].
        rewrite Hr, Hv, Hreq. unfold mirrors. cbn. auto 10.
  - unfold mirrors. cbn. rewrite Hclock. auto 10.
Qed.

Lemma mirrors_exec
    (req : Request) (schedule : list Turn) (cmd : RestRequestCommand)
    (c : Cycle) :
  request (thread c) = req ->
  mirrors req cmd c ->
  mirrors req (command_steps (map step_of_turn schedule) cmd)
    (exec schedule c).
Proof.
  revert cmd c.
  induction schedule as [|t schedule IH]; intros cmd c Hreq H; [exact H|].
  cbn [map]. apply IH.
  - rewrite request_turn. exact Hreq.
  - apply mirrors_turn; assumption.
Qed.

(** X9.  Whatever the editor, the threads and the timers do to one command
    object, starting from the object as built: the console only ever shows
    an exception of the parser or the [ValueError] of a status code unknown
    to [HTTPStatus], never an attribute read before [run] assigned it and
    never a failed assertion of [poll]; callbacks are queued only once both
    attributes are assigned; and every thread has the state of [run]
    for its own request. *)
Theorem command_never_faults (now : Z) (l : list Step) :
  let cmd := command_steps l (RestRequestCommand_init now) in
  (forall r, In r (reports cmd) ->
     (exists view e, parse view = ParseFails e /\ r = RunRaised e)
     \/ (exists code,
           HTTPStatus code = None /\ r = CallbackRaised (ValueError code)))
  /\ (callbacks cmd <> [] ->
      self_request cmd <> None /\ self_panel_view cmd <> None)
  /\ (forall t, In t (threads cmd) ->
      thread_inv (request t) (wall_clock cmd) t).
Proof.
  intros cmd.
  destruct (command_inv_steps l _ (command_inv_init now))
    as (Hthreads & _ & Hattr & Hrep).
  fold cmd in Hthreads, Hattr, Hrep.
  split; [|split].
  - intros r Hin. rewrite Forall_forall in Hrep. apply Hrep in Hin.
    destruct r as [[code|]|e|name]; cbn in Hin; try contradiction.
    + right. exists code. auto.
    + left. destruct Hin as [view Hview]. exists view, e. auto.
  - intros Hq. destruct Hattr as [Hset|Hnil]; [exact Hset|contradiction].
  - rewrite Forall_forall in Hthreads. exact Hthreads.
Qed.

(** X10.  [run] starts one thread per invocation that finds an active view
    whose text parses, and nothing otherwise: after any steps the threads
    are, in order, those of the parsed requests, [self.request] is the
    latest of them, the window was asked to create and show the panel once
    for each, and at most one callback per such invocation is queued. *)
Theorem run_starts_one_thread_per_request (now : Z) (l : list Step) :
  let cmd := command_steps l (RestRequestCommand_init now) in
  map request (threads cmd) = parsed_requests l
  /\ self_request cmd = last (map Some (parsed_requests l)) None
  /\ window_calls cmd = flat_map (fun _ => panel_shown) (parsed_requests l)
  /\ (List.length (callbacks cmd) <= List.length (parsed_requests l))%nat
  /\ (parsed_requests l = [] ->
      self_panel_view cmd = None /\ callbacks cmd = []).
Proof.
  intros cmd.
  destruct (command_ledger now l) as (Hthreads & Hreq & Hwin & Hlen).
  fold cmd in Hthreads, Hreq, Hwin, Hlen.
  do 4 (split; [assumption|]).
  intros Hnone. rewrite Hnone in *. cbn in Hreq, Hlen.
  assert (Hq : callbacks cmd = []).
  { destruct (callbacks cmd); [reflexivity|cbn in Hlen; lia]. }
  split; [|exact Hq].
  clear Hthreads Hwin Hlen Hq Hreq. subst cmd.
  induction l as [|s l IH] using rev_ind; [reflexivity|].
  unfold parsed_requests in Hnone. rewrite flat_map_app in Hnone.
  apply app_eq_nil in Hnone. destruct Hnone as [Hl Hs].
  specialize (IH Hl). rewrite command_steps_snoc.
  set (cmd := command_steps l (RestRequestCommand_init now)) in *.
  assert (Hq : callbacks cmd = []).
  { pose proof (command_ledger now l) as (_ & _ & _ & Hlen).
    fold cmd in Hlen. unfold parsed_requests in Hlen. rewrite Hl in Hlen.
    destruct (callbacks cmd); [reflexivity|cbn in Hlen; lia]. }
  destruct s as [[view|] panel|worker|which|ticks]; cbn [command_step].
  - unfold RestRequestCommand_run. cbn in Hs.
    destruct (parse view); [discriminate Hs|exact IH].
  - exact IH.
  - exact IH.
  - rewrite Hq. destruct which; exact IH.
  - exact IH.
Qed.

(** X11.  A single invocation on a fresh command object is a request cycle:
    when the active view parses to [req], the command after [run] and any
    schedule holds exactly what the cycle started by [send_request] for
    [req] holds after the same schedule, the panel, the thread, the queue,
    the console and the clock, and the window was asked once to create the
    panel [PANEL_NAME] and once to show it. *)
Theorem single_invocation_is_a_cycle
    (view panel : sublime.View) (now : Z) (schedule : list Turn)
    (req : Request) :
  parse view = Parsed req ->
  let cmd :=
    command_steps (Invoke (Some view) panel :: map step_of_turn schedule)
      (RestRequestCommand_init now) in
  let c := exec schedule (send_request req panel now) in
  self_request cmd = Some req
  /\ self_panel_view cmd = Some (panel_view c)
  /\ threads cmd = [thread c]
  /\ callbacks cmd = map (job_of_callback req) (timeouts c)
  /\ reports cmd = map CallbackRaised (console c)
  /\ wall_clock cmd = clock c
  /\ window_calls cmd
     = [CreateOutputPanel PANEL_NAME; ShowPanel ("output." ++ PANEL_NAME)].
Proof.
  intros Hparse cmd c.
  apply (mirrors_exec req schedule); [reflexivity|].
  cbn [command_step]. unfold RestRequestCommand_run. rewrite Hparse.
  unfold mirrors. cbn. auto 10.
Qed.

(** X12.  The closures of an invocation read [self.request] and
    [self.panel_view] when they run, not when they were made.  For any
    callback queued after any steps: a response on its way to the panel is
    what the adapter returned for one of the requests invoked, and
    [on_success] writes it under the line of the latest request invoked;
    likewise an error; and a closure of [poll] holds the bounds of the frame
    of its own request. *)
Theorem outcome_labelled_with_latest_request
    (now : Z) (l : list Step) (which : nat) (job : Job) (delay : Z) :
  let cmd := command_steps l (RestRequestCommand_init now) in
  nth_error (callbacks cmd) which = Some (job, delay) ->
  exists latest,
    last (map Some (parsed_requests l)) None = Some latest
    /\ let shown :=
         option_map sublime.text
           (self_panel_view (command_step (UiStep which) cmd)) in
       match job with
       | SuccessJob r =>
           (exists asked,
              In asked (parsed_requests l)
              /\ client_request asked = Returns r)
           /\ (forall phrase,
                 HTTPStatus (status r) = Some phrase ->
                 shown = Some (success_output latest r phrase))
       | ErrorJob exception trace =>
           (exists asked,
              In asked (parsed_requests l)
              /\ client_request asked = Raises exception
              /\ trace = format_exc exception)
           /\ shown = Some (error_output latest exception trace)
       | PollJob worker lo hi _ _ =>
           exists asked,
             nth_error (parsed_requests l) worker = Some asked
             /\ lo = throbber_start asked /\ hi = throbber_end asked
       end.
Proof.
  intros cmd Hq.
  destruct (command_inv_steps l _ (command_inv_init now))
    as (_ & Hjobs & Hattr & _).
  destruct (command_ledger now l) as (Hthreads & Hreq & _ & _).
  fold cmd in Hjobs, Hattr, Hthreads, Hreq.
  destruct Hattr as [[Hr Hv]|Hnil];
    [|rewrite Hnil in Hq; destruct which; discriminate Hq].
  destruct (self_request cmd) as [latest|] eqn:Elatest; [|contradiction].
  destruct (self_panel_view cmd) as [v|] eqn:Eview; [|contradiction].
  exists latest. split; [symmetry; exact Hreq|].
  assert (Horigin : job_origin (parsed_requests l) (job, delay)).
  { rewrite <- Hthreads. rewrite Forall_forall in Hjobs. apply Hjobs.
    eapply nth_error_In, Hq. }
  cbn [command_step]. rewrite Hq.
  destruct job as [worker lo hi position step_|r|exc trace];
    unfold job_origin in Horigin; cbn [fst] in Horigin; cbn [run_job].
  - exact Horigin.
  - split; [exact Horigin|]. intros phrase Hphrase.
    unfold RestRequestCommand_on_success, RestRequestCommand_write.
    rewrite Hphrase. cbn [self_request with_callbacks self_panel_view].
    rewrite Elatest, Eview. cbn [self_panel_view with_panel_view option_map].
    rewrite text_update_full. reflexivity.
  - split; [exact Horigin|].
    unfold RestRequestCommand_on_error, RestRequestCommand_write.
    cbn [self_request with_callbacks self_panel_view].
    rewrite Elatest, Eview. cbn [self_panel_view with_panel_view option_map].
    rewrite text_update_full. reflexivity.
Qed.

End Plugin.

(* ================================================================== *)
(** ** The statements at sample cycles *)

(** The cycle of a sample adapter for a request on a fresh panel, with the
    clock at 0, after a schedule. *)
Local Abbreviation sample_cycle adapter req schedule :=
  (exec SampleError adapter HTTPStatus_py38 sample_repr sample_format_exc
        schedule (send_request SampleError req empty_panel 0)).

Local Abbreviation sample_thread adapter req schedule :=
  (thread SampleError (sample_cycle adapter req schedule)).

Local Abbreviation panel_text c := (sublime.text (panel_view SampleError c)).

(** C1 at samples: [worker_records_outcome] for a refused connection and for
    an answered request. *)
Lemma worker_records_outcome_witness :
  let t := sample_thread adapter_refused localhost_request
             (repeat WorkerTurn 7) in
  let u := sample_thread adapter_ok get_request
             ([WorkerTurn; WorkerTurn; TimePasses 3] ++ repeat WorkerTurn 4)
  in
  (7 <= worker_turns (repeat WorkerTurn 7))%nat
  /\ success SampleError t = Some false
  /\ error SampleError t
     = Some (connection_refused, sample_format_exc connection_refused)
  /\ response SampleError t = None
  /\ is_alive SampleError t = false
  /\ success SampleError u = Some true
  /\ response SampleError u = Some ok_response
  /\ elapsed SampleError u = Some 3.
Proof.
  assert (H7 : (7 <= worker_turns (repeat WorkerTurn 7))%nat)
    by (vm_compute; lia).
  assert (H6 : (6 <= worker_turns ([WorkerTurn; WorkerTurn; TimePasses 3]
                                    ++ repeat WorkerTurn 4))%nat)
    by (vm_compute; lia).
  pose proof (worker_records_outcome SampleError adapter_refused
                HTTPStatus_py38 sample_repr sample_format_exc
                localhost_request empty_panel 0 (repeat WorkerTurn 7) H7)
    as (_ & Halive & (Hs & He & Hr) & _).
  pose proof (worker_records_outcome SampleError adapter_ok
                HTTPStatus_py38 sample_repr sample_format_exc
                get_request empty_panel 0
                ([WorkerTurn; WorkerTurn; TimePasses 3]
                 ++ repeat WorkerTurn 4) H6)
    as (_ & _ & (Hs' & Hr' & _) & _).
  repeat (split; [assumption|]).
  reflexivity.
Defined.

(** C5 at samples: [outcome_written_once] for an answered request: the outcome
    of the returned thread has one side, written by one turn, and later turns
    leave it as it is; after two statements the accessors raise. *)
Lemma outcome_written_once_witness :
  let c0 := send_request SampleError get_request empty_panel 0 in
  let t := sample_thread adapter_ok get_request (repeat WorkerTurn 6) in
  let t' := sample_thread adapter_ok get_request
              (repeat WorkerTurn 6 ++ [UiTurn; TimePasses 5; WorkerTurn]) in
  let early := sample_thread adapter_ok get_request (repeat WorkerTurn 2) in
  is_alive SampleError t = false
  /\ exactly_one_side SampleError t
  /\ flag_writes SampleError adapter_ok HTTPStatus_py38 sample_repr
       sample_format_exc (repeat WorkerTurn 6) c0 = 1%nat
  /\ success SampleError t' = Some true
  /\ response SampleError t' = Some ok_response
  /\ success SampleError early = None
  /\ get_response SampleError early
     = RestException "Attempted to retrieve response before completion".
Proof.
  pose proof (outcome_written_once SampleError adapter_ok HTTPStatus_py38
                sample_repr sample_format_exc get_request empty_panel 0
                (repeat WorkerTurn 6) [UiTurn; TimePasses 5; WorkerTurn])
    as (Hone & Hkeep & _).
  pose proof (outcome_written_once SampleError adapter_ok HTTPStatus_py38
                sample_repr sample_format_exc get_request empty_panel 0
                (repeat WorkerTurn 2) [])
    as (_ & _ & Hearly).
  split; [reflexivity|].
  split; [apply Hone; reflexivity|].
  split; [apply Hone; reflexivity|].
  destruct Hkeep as (_ & _ & Hs & Hr & _); [discriminate|].
  rewrite exec_app.
  split; [rewrite Hs; reflexivity|].
  split; [rewrite Hr; reflexivity|].
  split; [reflexivity|].
  apply Hearly. reflexivity.
Defined.

(** C6 at samples: [accessors_guard] for an answered request: after three
    statements the response is stored but the flag is unset, and
    [get_response] raises; after four it returns the response. *)
Lemma accessors_guard_witness :
  let early := sample_thread adapter_ok get_request (repeat WorkerTurn 3) in
  let t := sample_thread adapter_ok get_request (repeat WorkerTurn 4) in
  (worker_turns (repeat WorkerTurn 3) + 2 < 6)%nat
  /\ response SampleError early = Some ok_response
  /\ success SampleError early = None
  /\ get_response SampleError early
     = RestException "Attempted to retrieve response before completion"
  /\ get_error SampleError early
     = RestException "Attempted to retrieve error before completion"
  /\ success SampleError t <> None
  /\ get_response SampleError t = Value ok_response.
Proof.
  pose proof (accessors_guard SampleError adapter_ok HTTPStatus_py38
                sample_repr sample_format_exc get_request empty_panel 0
                (repeat WorkerTurn 3))
    as (_ & _ & Hiff & Hraise & _).
  pose proof (accessors_guard SampleError adapter_ok HTTPStatus_py38
                sample_repr sample_format_exc get_request empty_panel 0
                (repeat WorkerTurn 4))
    as (_ & _ & _ & _ & Hvalue).
  assert (Hlt : (worker_turns (repeat WorkerTurn 3) + 2 < 6)%nat)
    by (vm_compute; lia).
  split; [exact Hlt|].
  split; [reflexivity|].
  split; [apply Hiff; exact Hlt|].
  split; [apply Hraise, Hiff; exact Hlt|].
  split; [apply Hraise, Hiff; exact Hlt|].
  split; [discriminate|].
  apply Hvalue. discriminate.
Defined.



(** C2 at samples: [throbber_walk] at the two boundaries: the fifth tick
    reaches position 5 and turns the step to -1, the tenth reaches 0 and
    turns it to +1; and in a cycle with five ticks among three statements of
    the worker, the panel has received the frames of positions 0 to 4. *)
Lemma throbber_walk_witness :
  let schedule :=
    [UiTurn; WorkerTurn; UiTurn; UiTurn; TimePasses 1; WorkerTurn; UiTurn;
     WorkerTurn; UiTurn] in
  let c := sample_cycle adapter_ok get_request schedule in
  fst (poller 5) = 5 /\ snd (poller 4) = 1 /\ snd (poller 5) = -1
  /\ fst (poller 10) = 0 /\ snd (poller 9) = -1 /\ snd (poller 10) = 1
  /\ snd (poller 5) <> snd (poller 4)
  /\ (worker_turns schedule < 6)%nat
  /\ rendered (panel_view SampleError c)
     = [ waiting_frame get_request;
         "=     "; " =    "; "  =   "; "   =  "; "    = " ].
Proof.
  intros schedule c.
  pose proof (throbber_walk SampleError adapter_ok HTTPStatus_py38
                sample_repr sample_format_exc get_request empty_panel 0
                schedule 4)
    as (_ & _ & Hticks & _ & _ & _ & _ & Hhigh & Hflip & _).
  pose proof (throbber_walk SampleError adapter_ok HTTPStatus_py38
                sample_repr sample_format_exc get_request empty_panel 0
                schedule 9)
    as (_ & _ & _ & _ & _ & _ & Hlow & _).
  assert (Hlt : (worker_turns schedule < 6)%nat) by (vm_compute; lia).
  split; [reflexivity|]. split; [reflexivity|].
  split; [apply Hhigh; reflexivity|].
  split; [reflexivity|]. split; [reflexivity|].
  split; [apply Hlow; reflexivity|].
  split; [apply Hflip; right; reflexivity|].
  split; [exact Hlt|].
  exact (proj2 (Hticks Hlt)).
Defined.

(** C9 at a sample: [throbber_frame_effect] at the second tick of a cycle
    whose worker has read the clock: the span at 52..58 comes to show the mark
    at position 1. *)
Lemma throbber_frame_effect_witness :
  let c := sample_cycle adapter_ok get_request [UiTurn; WorkerTurn] in
  let c' := turn SampleError adapter_ok HTTPStatus_py38 sample_repr
              sample_format_exc UiTurn c in
  timeouts SampleError c = [(Poll SampleError 1 1, THROBBER_REFRESH_RATE)]
  /\ is_alive SampleError (thread SampleError c) = true
  /\ throbber_start get_request = 52
  /\ throbber_end get_request = 58
  /\ indicator get_request (panel_text c) = "=     "
  /\ indicator get_request (panel_text c') = " =    "
  /\ before_indicator get_request (panel_text c')
     = before_indicator get_request (panel_text c)
  /\ after_indicator get_request (panel_text c') = "]"
  /\ sublime.size (panel_view SampleError c') = 59.
Proof.
  pose proof (throbber_frame_effect SampleError adapter_ok HTTPStatus_py38
                sample_repr sample_format_exc get_request empty_panel 0
                [UiTurn; WorkerTurn] 1 1 THROBBER_REFRESH_RATE []
                eq_refl eq_refl)
    as (_ & _ & _ & _ & _ & _ & _ & Hspan & Hbefore & _ & _ & _).
  split; [reflexivity|]. split; [reflexivity|].
  split; [reflexivity|]. split; [reflexivity|].
  split; [reflexivity|].
  split; [exact Hspan|].
  split; [exact Hbefore|].
  split; reflexivity.
Defined.



(** C4 at a sample: [error_rendering] for the request GET
    http://localhost:9999 whose connection is refused. *)
Lemma error_rendering_witness :
  let c := sample_cycle adapter_refused localhost_request
             (repeat WorkerTurn 7 ++ [UiTurn; UiTurn]) in
  adapter_refused localhost_request = Raises connection_refused
  /\ sample_format_exc connection_refused <> EmptyString
  /\ timeouts SampleError c = []
  /\ exists diagnostic,
       error SampleError (thread SampleError c)
       = Some (connection_refused, diagnostic)
       /\ diagnostic <> EmptyString
       /\ panel_text c
          = three_blocks
              "REST Client: Error on request to GET http://localhost:9999"
              "ConnectionRefusedError('[Errno 111] Connection refused')"
              diagnostic
       /\ prefix "REST Client: Error on request to GET http://localhost:9999"
            (panel_text c) = true
       /\ console SampleError c = [].
Proof.
  assert (Hdiag : sample_format_exc connection_refused <> EmptyString)
    by discriminate.
  pose proof (error_rendering SampleError adapter_refused HTTPStatus_py38
                sample_repr sample_format_exc localhost_request empty_panel 0
                (repeat WorkerTurn 7 ++ [UiTurn; UiTurn]) connection_refused
                eq_refl Hdiag)
    as (Hover & _).
  split; [reflexivity|]. split; [exact Hdiag|]. split; [reflexivity|].
  exact (Hover eq_refl).
Defined.

(** C10 at a sample: [nonstandard_status_not_rendered] for a response with
    the status 599; 299, a 2xx that is no member either, is unknown as
    well. *)
Lemma nonstandard_status_not_rendered_witness :
  let c := sample_cycle adapter_odd get_request (repeat WorkerTurn 6) in
  let c' := exec SampleError adapter_odd HTTPStatus_py38 sample_repr
              sample_format_exc [UiTurn; UiTurn] c in
  adapter_odd get_request = Returns odd_response
  /\ HTTPStatus_py38 599 = None
  /\ HTTPStatus_py38 299 = None
  /\ (6 <= worker_turns (repeat WorkerTurn 6))%nat
  /\ success SampleError (thread SampleError c') = Some true
  /\ response SampleError (thread SampleError c') = Some odd_response
  /\ timeouts SampleError c' = []
  /\ console SampleError c' = [ValueError 599]
  /\ exists span, panel_text c' = frame get_request span.
Proof.
  assert (H6 : (6 <= worker_turns (repeat WorkerTurn 6))%nat)
    by (vm_compute; lia).
  pose proof (nonstandard_status_not_rendered SampleError adapter_odd
                HTTPStatus_py38 sample_repr sample_format_exc get_request
                empty_panel 0 (repeat WorkerTurn 6) odd_response
                eq_refl eq_refl)
    as (_ & _ & _ & Hend & _).
  split; [reflexivity|]. split; [reflexivity|]. split; [reflexivity|].
  split; [exact H6|].
  exact (Hend H6).
Defined.

(* ================================================================== *)
(** ** Further properties at samples *)

(** X1 at a sample: the empty region at 2 inserts, the empty region at 0
    replaces everything. *)
Lemma write_at_zero_replaces_all_witness :
  let view := sample_view "abcdef" in
  0 < 2 <= sublime.size view
  /\ sublime.text (update_rest_response_panel view "XY" (Some 2) (Some 2))
     = "abXYcdef"
  /\ sublime.text (update_rest_response_panel view "XY" (Some 0) (Some 0))
     = "XY".
Proof.
  intros view.
  assert (Hat : 0 < 2 <= sublime.size view)
    by (cbv; split; [reflexivity|discriminate]).
  pose proof (write_at_zero_replaces_all view "XY" 2) as (_ & Hwhole & Hins).
  destruct (Hins Hat) as [Htext _].
  split; [exact Hat|].
  split; [rewrite Htext; reflexivity|exact Hwhole].
Defined.

(** X3 at a sample: the thread of an answered request has returned;
    [get_response] gives the response and [get_error] raises. *)
Lemma other_accessor_never_returns_witness :
  let t := sample_thread adapter_ok get_request (repeat WorkerTurn 6) in
  is_alive SampleError t = false
  /\ get_response SampleError t = Value ok_response
  /\ get_error SampleError t
     = RestException "Attempted to retrieve error before completion".
Proof.
  intros t.
  pose proof (other_accessor_never_returns SampleError adapter_ok
                HTTPStatus_py38 sample_repr sample_format_exc get_request
                empty_panel 0 (repeat WorkerTurn 6))
    as [Herror Hresponse].
  split; [reflexivity|].
  split; [apply Hresponse; reflexivity|exact Herror].
Defined.


(** X5 at a sample: after two ticks of the poller and no statement of the
    worker the thread is alive; the queue holds the third tick and the
    console is empty. *)
Lemma one_callback_pending_witness :
  let c := sample_cycle adapter_ok get_request [UiTurn; UiTurn] in
  is_alive SampleError (thread SampleError c) = true
  /\ timeouts SampleError c = [(Poll SampleError 2 1, 100)]
  /\ console SampleError c = [].
Proof.
  intros c.
  pose proof (one_callback_pending SampleError adapter_ok HTTPStatus_py38
                sample_repr sample_format_exc get_request empty_panel 0
                [UiTurn; UiTurn])
    as (_ & _ & Halive & _).
  destruct (Halive eq_refl) as [_ Hconsole].
  split; [reflexivity|].
  split; [reflexivity|exact Hconsole].
Defined.

(** X6 at a sample: the cycle of an answered request is over after the
    statements of the worker and two turns of the UI thread, and four more
    turns change neither the panel nor the queue. *)
Lemma cycle_over_is_final_witness :
  let schedule := (repeat WorkerTurn 6 ++ [UiTurn; UiTurn])%list in
  let later := [UiTurn; WorkerTurn; TimePasses 4; UiTurn] in
  let c := sample_cycle adapter_ok get_request schedule in
  let c' := sample_cycle adapter_ok get_request (schedule ++ later)%list in
  timeouts SampleError c = []
  /\ panel_view SampleError c' = panel_view SampleError c
  /\ timeouts SampleError c' = [].
Proof.
  intros schedule later c c'.
  assert (Hover : timeouts SampleError c = []) by reflexivity.
  pose proof (cycle_over_is_final SampleError adapter_ok HTTPStatus_py38
                sample_repr sample_format_exc get_request empty_panel 0
                schedule later Hover)
    as (_ & Hpanel & Hqueue & _).
  unfold c'. rewrite exec_app.
  split; [exact Hover|].
  split; [exact Hpanel|exact Hqueue].
Defined.

(** X8 at a sample: with the third tick queued, the panel was written the
    first frame and then the indicators of the walk up to the position of
    that tick, and no final text. *)
Lemma writes_are_ordered_witness :
  let c := sample_cycle adapter_ok get_request [UiTurn; UiTurn] in
  In (Poll SampleError 2 1, 100) (timeouts SampleError c)
  /\ exists k,
       poller k = (2, 1)
       /\ rendered (panel_view SampleError c)
          = (waiting_frame get_request :: frames k)%list.
Proof.
  intros c.
  assert (Hin : In (Poll SampleError 2 1, 100) (timeouts SampleError c))
    by (left; reflexivity).
  destruct (writes_are_ordered SampleError adapter_ok HTTPStatus_py38
              sample_repr sample_format_exc get_request empty_panel 0
              [UiTurn; UiTurn])
    as (k & final & Hrendered & _ & Hqueued).
  destruct (Hqueued 2 1 100 Hin) as [Hk Hfinal].
  split; [exact Hin|].
  exists k. split; [exact Hk|].
  rewrite Hfinal, app_nil_r in Hrendered. exact Hrendered.
Defined.

(** The sample command, built with the clock at 0, after some steps. *)
Local Abbreviation sample_command adapter l :=
  (command_steps SampleError adapter HTTPStatus_py38 sample_repr
     sample_format_exc sample_parse l (RestRequestCommand_init SampleError 0)).

(** X11 at a sample: one invocation on a view that holds a URL, the
    statements of the worker and two turns of the UI thread; the panel of
    the command shows the response as the cycle renders it. *)
Lemma single_invocation_is_a_cycle_witness :
  let view := sample_view "https://example.test/get" in
  let schedule := (repeat WorkerTurn 6 ++ [UiTurn; UiTurn])%list in
  let cmd :=
    sample_command adapter_ok
      (Invoke (Some view) empty_panel :: map step_of_turn schedule) in
  sample_parse view = Parsed get_request
  /\ option_map sublime.text (self_panel_view SampleError cmd)
     = Some ("GET https://example.test/get 200 OK" ++ LF ++ LF
             ++ "Date: X" ++ LF ++ LF ++ data ok_response)
  /\ callbacks SampleError cmd = []
  /\ reports SampleError cmd = [].
Proof.
  intros view schedule cmd.
  assert (Hparse : sample_parse view = Parsed get_request) by reflexivity.
  pose proof (single_invocation_is_a_cycle SampleError adapter_ok
                HTTPStatus_py38 sample_repr sample_format_exc sample_parse
                view empty_panel 0 schedule get_request Hparse)
    as (_ & Hpanel & _ & Hqueue & Hreports & _).
  fold cmd in Hpanel, Hqueue, Hreports.
  split; [exact Hparse|].
  split; [rewrite Hpanel; reflexivity|].
  split; [rewrite Hqueue; reflexivity|rewrite Hreports; reflexivity].
Defined.

(** X12 at a sample: a second invocation while the response of the first
    is on its way.  The first view asks for [https://example.test/get], which
    is answered; the second for the local port, where the connection is
    refused.  The response of the first request is then shown under the line
    of the second. *)
Lemma outcome_labelled_with_latest_request_witness :
  let first := sample_view "https://example.test/get" in
  let second := sample_view "http://localhost:9999" in
  let l :=
    ([Invoke (Some first) empty_panel] ++ repeat (WorkerStep 0) 6
     ++ [Invoke (Some second) empty_panel; UiStep 0])%list in
  let cmd := sample_command adapter_by_url l in
  nth_error (callbacks SampleError cmd) 1
  = Some (SuccessJob SampleError ok_response, 0)
  /\ adapter_by_url localhost_request = Raises connection_refused
  /\ option_map sublime.text
       (self_panel_view SampleError
          (command_step SampleError adapter_by_url HTTPStatus_py38
             sample_repr sample_format_exc sample_parse (UiStep 1) cmd))
     = Some ("GET http://localhost:9999 200 OK" ++ LF ++ LF
             ++ "Date: X" ++ LF ++ LF ++ data ok_response).
Proof.
  intros first second l cmd.
  assert (Hqueued : nth_error (callbacks SampleError cmd) 1
                    = Some (SuccessJob SampleError ok_response, 0))
    by reflexivity.
  destruct (outcome_labelled_with_latest_request SampleError adapter_by_url
              HTTPStatus_py38 sample_repr sample_format_exc sample_parse
              0 l 1 (SuccessJob SampleError ok_response) 0 Hqueued)
    as (latest & Hlatest & _ & Hshown).
  assert (Hsecond : Some latest = Some localhost_request)
    by (rewrite <- Hlatest; reflexivity).
  injection Hsecond as ->.
  split; [exact Hqueued|].
  split; [reflexivity|].
  etransitivity; [exact (Hshown "OK" eq_refl)|reflexivity].
Defined.

(** X9 at a sample: a view without text makes the parser raise, and the
    status 599 of the next request is unknown to [HTTPStatus]; the console
    shows these two reports and each is of one of the two kinds. *)
Lemma command_never_faults_witness :
  let l :=
    ([Invoke (Some (sample_view EmptyString)) empty_panel;
      Invoke (Some (sample_view "https://example.test/get")) empty_panel]
     ++ repeat (WorkerStep 0) 6 ++ [UiStep 0; UiStep 0])%list in
  let cmd := sample_command adapter_odd l in
  let r := CallbackRaised SampleError (ValueError 599) in
  List.length (reports SampleError cmd) = 2%nat
  /\ In r (reports SampleError cmd)
  /\ ((exists view e,
         sample_parse view = ParseFails e /\ r = RunRaised SampleError e)
      \/ (exists code,
            HTTPStatus_py38 code = None
            /\ r = CallbackRaised SampleError (ValueError code))).
Proof.
  intros l cmd r.
  assert (Hin : In r (reports SampleError cmd))
    by (right; left; reflexivity).
  pose proof (command_never_faults SampleError adapter_odd HTTPStatus_py38
                sample_repr sample_format_exc sample_parse 0 l)
    as (Hreports & _).
  split; [reflexivity|].
  split; [exact Hin|exact (Hreports r Hin)].
Defined.

(** X10 at a sample: an invocation without an active view and one whose
    view does not parse start nothing, whatever else happens. *)
Lemma run_starts_one_thread_per_request_witness :
  let l :=
    [Invoke None empty_panel;
     Invoke (Some (sample_view EmptyString)) empty_panel;
     UiStep 0; WorkerStep 0; Elapse 2] in
  let cmd := sample_command adapter_ok l in
  parsed_requests SampleError sample_parse l = []
  /\ threads SampleError cmd = []
  /\ self_panel_view SampleError cmd = None
  /\ callbacks SampleError cmd = []
  /\ window_calls SampleError cmd = [].
Proof.
  intros l cmd.
  assert (Hnone : parsed_requests SampleError sample_parse l = [])
    by reflexivity.
  pose proof (run_starts_one_thread_per_request SampleError adapter_ok
                HTTPStatus_py38 sample_repr sample_format_exc sample_parse
                0 l)
    as (Hthreads & _ & Hwindow & _ & Hnothing).
  destruct (Hnothing Hnone) as [Hpanel Hqueue].
  split; [exact Hnone|].
  split; [apply map_eq_nil in Hthreads; exact Hthreads|].
  split; [exact Hpanel|].
  split; [exact Hqueue|exact Hwindow].
Defined.
